(** * rovnoui: a shallow embedding of the terminal widget toolkit

    The development follows [rovnoui/__init__.py]: every class is a module,
    every method a definition of the same name.  Python integers are [Z],
    Python strings are [string], lists are [list], a [dict] (whose iteration
    order is its insertion order) is an association list with distinct keys.
    Methods that write to the terminal, read a line, touch the operating
    system or raise run in the monad [IO], a state monad over the [World]
    whose results are either a value or a raised exception.  What the rich
    console refuses to render is not decided here: it is the parameter
    [Rich] of everything that prints. *)

From Stdlib Require Import ZArith List String Ascii Bool Lia DecimalString.
Import ListNotations.

Local Open Scope string_scope.
Local Open Scope Z_scope.

(** ** Python strings *)

Module Str.

(** [len(s)] *)
Definition len (s : string) : Z := Z.of_nat (String.length s).

(** [s * n] for a string [s] and an integer [n]: no copy at all when
    [n <= 0]. *)
Fixpoint repeat (s : string) (n : nat) : string :=
  match n with
  | O => ""
  | S n' => s ++ repeat s n'
  end.

Definition mul (s : string) (n : Z) : string := repeat s (Z.to_nat n).

(** [s[:stop]]: a negative [stop] counts from the end, and both ends are
    clamped to the string. *)
Definition slice_to (s : string) (stop : Z) : string :=
  if 0 <=? stop
  then substring 0 (Z.to_nat stop) s
  else substring 0 (Z.to_nat (len s + stop)) s.

(** [s.startswith(p)] and [s.endswith(p)] *)
Definition startswith (s p : string) : bool := String.prefix p s.

Definition endswith (s p : string) : bool :=
  (String.length p <=? String.length s)%nat
  && (substring (String.length s - String.length p) (String.length p) s =? p)%string.

(** [str(n)] for an integer [n] *)
Definition of_int (n : Z) : string := NilZero.string_of_int (Z.to_int n).

End Str.

(** ** Exceptions, results and the world *)

Inductive exn : Type :=
| AttributeError
| EOFError
| IndexError
| KeyError
| KeyboardInterrupt
| MarkupError
| MissingStyle
| NotImplementedError
| TypeError
| ValueError.

Definition exn_eqb (a b : exn) : bool :=
  match a, b with
  | AttributeError, AttributeError
  | EOFError, EOFError
  | IndexError, IndexError
  | KeyError, KeyError
  | KeyboardInterrupt, KeyboardInterrupt
  | MarkupError, MarkupError
  | MissingStyle, MissingStyle
  | NotImplementedError, NotImplementedError
  | TypeError, TypeError
  | ValueError, ValueError => true
  | _, _ => false
  end.

Inductive result (A : Type) : Type :=
| Ok (a : A)
| Raise (e : exn).

Arguments Ok {A} a.
Arguments Raise {A} e.

(** What reaches the terminal and the operating system, in order. *)
Inductive event : Type :=
| ConsolePrint (text : string) (style : option string) (highlight : bool)
    (* rich: [Console.print(text, style=style, highlight=highlight)] *)
| ConsoleInput (prompt : string)
    (* rich: the prompt written by [Console.input(prompt)] *)
| StdoutWrite (text : string)
    (* builtin [print(text, end='')] *)
| System (command : string).
    (* [os.system(command)] *)

(** What the user does when a line is asked for. *)
Inductive keyboard : Type :=
| Line (s : string)
| Interrupt.

(** [ctypes.Structure] with the fields [size] and [visible]. *)
Record _CursorInfo : Type := { size : Z; visible : bool }.

(** The platform the interpreter runs on: what [platform.system()] returns,
    and, where [ctypes] has the attribute [windll], what
    [kernel32.GetStdHandle] answers. *)
Record Platform : Type := {
  oprsys : string;
  windll : option (Z -> Z)
}.

Record World : Type := {
  platform : Platform;
  term : list event;
  stdin : list keyboard;
  console_cursor : _CursorInfo
}.

Definition IO (A : Type) : Type := World -> result A * World.

Definition ret {A} (a : A) : IO A := fun w => (Ok a, w).

Definition raise {A} (e : exn) : IO A := fun w => (Raise e, w).

Definition bind {A B} (m : IO A) (k : A -> IO B) : IO B :=
  fun w =>
    match m w with
    | (Ok a, w') => k a w'
    | (Raise e, w') => (Raise e, w')
    end.

Notation "x <- m ;; k" := (bind m (fun x => k))
  (at level 61, m at next level, right associativity).
Notation "m ;; k" := (bind m (fun _ => k))
  (at level 61, right associativity).

(** [try: body  except e: handler] *)
Definition try_except {A} (body : IO A) (e : exn) (handler : IO A) : IO A :=
  fun w =>
    match body w with
    | (Raise e', w') => if exn_eqb e' e then handler w' else (Raise e', w')
    | r => r
    end.

(** [for x in xs: body x] *)
Fixpoint for_ {A} (xs : list A) (body : A -> IO unit) : IO unit :=
  match xs with
  | [] => ret tt
  | x :: xs' => body x ;; for_ xs' body
  end.

Definition emit (evs : list event) (w : World) : World :=
  {| platform := platform w;
     term := term w ++ evs;
     stdin := stdin w;
     console_cursor := console_cursor w |}.

Definition write (ev : event) : IO unit := fun w => (Ok tt, emit [ev] w).

(** ** The external collaborators

    [rich] renders the text it is given as markup, under the style it is
    given, before anything reaches the terminal: a closing tag that closes
    nothing makes [Console.print] raise [MarkupError], a style it cannot
    resolve [MissingStyle].  Which texts and styles are refused belongs to
    [rich], not to this program: it is the parameter [refuses]. *)

Inductive refusal : Type :=
| BadMarkup
| UnknownStyle.

Definition exn_of (r : refusal) : exn :=
  match r with
  | BadMarkup => MarkupError
  | UnknownStyle => MissingStyle
  end.

Class Rich : Type := {
  refuses : string -> option string -> option refusal
}.

Section Console.

Context {R : Rich}.

(** [Console.print(text, style=style, highlight=highlight)]: nothing is
    written when the rendering is refused. *)
Definition console_print (text : string) (style : option string) (highlight : bool)
  : IO unit :=
  match refuses text style with
  | Some r => raise (exn_of r)
  | None => write (ConsolePrint text style highlight)
  end.

(** [Console.input(prompt)]: the prompt is printed by the console, as
    markup, then a line is read; an interrupt raises [KeyboardInterrupt],
    the end of the input [EOFError]. *)
Definition console_input (prompt : string) : IO string :=
  match refuses prompt None with
  | Some r => raise (exn_of r)
  | None =>
      fun w =>
        let w' := emit [ConsoleInput prompt] w in
        match stdin w' with
        | [] => (Raise EOFError, w')
        | Line s :: rest =>
            (Ok s, {| platform := platform w'; term := term w'; stdin := rest;
                      console_cursor := console_cursor w' |})
        | Interrupt :: rest =>
            (Raise KeyboardInterrupt,
             {| platform := platform w'; term := term w'; stdin := rest;
                console_cursor := console_cursor w' |})
        end
  end.

End Console.

Definition builtin_print (text : string) : IO unit := write (StdoutWrite text).

Definition system (command : string) : IO unit := write (System command).

(** ** FixedLabel *)

Module FixedLabel.

Record t : Type := { text : string; limit : Z }.

Definition _construct (self : t) : string :=
  let text_length := Str.len (text self) in
  if text_length <? limit self then
    text self ++ Str.mul " " (limit self - text_length)
  else if text_length =? limit self then
    text self
  else
    Str.slice_to (text self) (limit self - 3) ++ "...".

Definition construct (self : t) : string := _construct self.

Section Printing.

Context {R : Rich}.

Definition print (self : t) : IO unit :=
  console_print (_construct self) None true.

End Printing.

End FixedLabel.

(** ** Header *)

Module Header.

Record t : Type := { text : string; style : string }.

Section Printing.

Context {R : Rich}.

Definition print (self : t) : IO unit :=
  console_print (" " ++ text self ++ " ") (Some (style self)) false.

End Printing.

End Header.

(** [if type(self.header) == Header: self.header.print()] *)
Definition print_header {R : Rich} (header : option Header.t) : IO unit :=
  match header with
  | Some h => Header.print h
  | None => ret tt
  end.

(** ** ScrollingTextBox *)

(** [l.pop(0)] *)
Definition pop0 {A} (l : list A) : IO (list A) :=
  match l with
  | [] => raise IndexError
  | _ :: l' => ret l'
  end.

Module ScrollingTextBox.

Record t : Type := { _line_buffer : list string; limit : Z }.

(** [range(limit)] is empty for [limit <= 0]; the [header] argument is
    not stored. *)
Definition __init__ (limit : Z) : t :=
  {| _line_buffer := List.repeat "" (Z.to_nat limit); limit := limit |}.

Section Printing.

Context {R : Rich}.

(** The method mutates [self], and the rendering that follows may raise:
    the object as the call leaves it is returned beside the result, in
    both cases.  [pop] raises before anything is changed; a refused line
    raises after the buffer has been changed. *)
Definition print (self : t) (text : string) : World -> result unit * t * World :=
  fun w =>
    match (if limit self <=? Z.of_nat (List.length (_line_buffer self))
           then pop0 (_line_buffer self)
           else ret (_line_buffer self)) w with
    | (Raise e, w') => (Raise e, self, w')
    | (Ok buffer, w') =>
        let buffer := (buffer ++ [text])%list in
        let self := {| _line_buffer := buffer; limit := limit self |} in
        let (r, w'') := for_ buffer (fun line => console_print line None false) w' in
        (r, self, w'')
    end.

End Printing.

End ScrollingTextBox.

(** ** DataFrame *)

Module DataFrame.

Record t : Type := {
  data : list string;
  header : option Header.t;
  colors : list string
}.

Section Printing.

Context {R : Rich}.

Definition print (self : t) : IO unit :=
  print_header (header self) ;;
  for_ (combine (data self) (colors self))
    (fun '(text, color) =>
       console_print ("[" ++ color ++ "]+[/" ++ color ++ "] " ++ text) None false).

End Printing.

End DataFrame.

(** ** Dictionaries: association lists in insertion order *)

Module Dict.

Definition t : Type := list (string * string).

Definition keys (d : t) : list string := map fst d.

Definition values (d : t) : list string := map snd d.

(** The keys of a [dict] are pairwise distinct. *)
Definition wf (d : t) : Prop := NoDup (keys d).

Fixpoint get (d : t) (k : string) : option string :=
  match d with
  | [] => None
  | (k', v) :: d' => if (k' =? k)%string then Some v else get d' k
  end.

(** [d[k]] *)
Definition getitem (d : t) (k : string) : IO string :=
  match get d k with
  | Some v => ret v
  | None => raise KeyError
  end.

End Dict.

(** [l[0]] *)
Definition first {A} (l : list A) : IO A :=
  match l with
  | [] => raise IndexError
  | x :: _ => ret x
  end.

(** [for x in xs: body] where the body updates a local variable *)
Fixpoint for_acc {A S} (xs : list A) (s : S) (body : A -> S -> IO S) : IO S :=
  match xs with
  | [] => ret s
  | x :: xs' => s' <- body x s ;; for_acc xs' s' body
  end.

(** ** Selector *)

(** What [ask] hands back: an [int], or the [bool] [False]. *)
Inductive pyval : Type :=
| PyInt (n : Z)
| PyBool (b : bool).

(** [bool] is a subclass of [int]: [True] is 1 and [False] is 0. *)
Definition int_value (v : pyval) : Z :=
  match v with
  | PyInt n => n
  | PyBool true => 1
  | PyBool false => 0
  end.

(** [a == b] and [bool(a)] *)
Definition py_eq (a b : pyval) : bool := int_value a =? int_value b.

Definition truthy (a : pyval) : bool := negb (int_value a =? 0).

Module Selector.

Record t : Type := {
  header : option Header.t;
  choices : list Dict.t;
  style : string
}.

Section Printing.

Context {R : Rich}.

Definition print (self : t) : IO unit :=
  print_header (header self) ;;
  let _i := 1 in
  _ <- for_acc (choices self) _i (fun choice _i =>
         for_acc (Dict.keys choice) _i (fun _key _i =>
           console_print ("[b]" ++ Str.of_int _i ++ ". " ++ _key ++ "[/]") None false ;;
           description <- Dict.getitem choice _key ;;
           console_print ("   " ++ description) None false ;;
           ret (_i + 1))) ;;
  ret tt.

End Printing.

Section Ask.

Context {R : Rich}.

(** The builtin [int] on strings: the number read, or nothing where
    [int] raises [ValueError]. *)
Variable int : string -> option Z.

Definition parse (s : string) : IO pyval :=
  match int s with
  | Some n => ret (PyInt n)
  | None => raise ValueError
  end.

Definition ask (self : t) (print_ : bool) : IO pyval :=
  (if print_ then print self else ret tt) ;;
  try_except
    (line <- console_input ("[b][" ++ style self ++ "]+[/][/] ") ;;
     parse line)
    KeyboardInterrupt
    (ret (PyBool false)).

End Ask.

End Selector.

(** ** InfoFrame *)

Module InfoFrame.

Record t : Type := { header : option Header.t; data : list Dict.t }.

Section Printing.

Context {R : Rich}.

Definition print (self : t) : IO unit :=
  print_header (header self) ;;
  for_ (data self) (fun entry =>
    title <- first (Dict.keys entry) ;;
    console_print ("[bold]" ++ title ++ "[/]") None false ;;
    body <- first (Dict.values entry) ;;
    console_print body None false).

End Printing.

End InfoFrame.

(** ** Widget: what a layout holds *)

Module Widget.

Inductive t : Type :=
| Base
| OfHeader (w : Header.t)
| OfScrollingTextBox (w : ScrollingTextBox.t)
| OfDataFrame (w : DataFrame.t)
| OfSelector (w : Selector.t)
| OfInfoFrame (w : InfoFrame.t)
| OfFixedLabel (w : FixedLabel.t).

Section Printing.

Context {R : Rich}.

(** [widget.print()], dispatched on the class of the object.  The base
    class only has the [typing.overload] stub, which raises
    [NotImplementedError] when called; [ScrollingTextBox.print] needs a
    [text] argument, so the call without one raises [TypeError]. *)
Definition print (widget : t) : IO unit :=
  match widget with
  | Base => raise NotImplementedError
  | OfHeader w => Header.print w
  | OfScrollingTextBox _ => raise TypeError
  | OfDataFrame w => DataFrame.print w
  | OfSelector w => Selector.print w
  | OfInfoFrame w => InfoFrame.print w
  | OfFixedLabel w => FixedLabel.print w
  end.

End Printing.

End Widget.

(** ** Screen *)

(** [ctypes.windll.kernel32]: the attribute [windll] exists on Windows
    only, elsewhere the lookup raises [AttributeError]. *)
Definition ctypes_windll_kernel32 : IO (Z -> Z) :=
  fun w =>
    match windll (platform w) with
    | Some GetStdHandle => (Ok GetStdHandle, w)
    | None => (Raise AttributeError, w)
    end.

(** [platform.system()] *)
Definition platform_system : IO string := fun w => (Ok (oprsys (platform w)), w).

(** The two console calls: the cursor description of the console is copied
    into the structure passed by reference, or set from it. *)
Definition GetConsoleCursorInfo (handle : Z) : IO _CursorInfo :=
  fun w => (Ok (console_cursor w), w).

Definition SetConsoleCursorInfo (handle : Z) (ci : _CursorInfo) : IO unit :=
  fun w =>
    (Ok tt, {| platform := platform w; term := term w; stdin := stdin w;
               console_cursor := ci |}).

(** The escape character, ['\033'] *)
Definition esc : string := String (ascii_of_nat 27) "".

Module Screen.

Record t : Type := {
  _updates : Z;
  layout : option (list Widget.t);
  widget_separator : string;
  ci : _CursorInfo;
  ci_handle : Z
}.

Definition set_updates (self : t) (n : Z) : t :=
  {| _updates := n; layout := layout self;
     widget_separator := widget_separator self;
     ci := ci self; ci_handle := ci_handle self |}.

Definition set_ci (self : t) (c : _CursorInfo) : t :=
  {| _updates := _updates self; layout := layout self;
     widget_separator := widget_separator self;
     ci := c; ci_handle := ci_handle self |}.

Definition __init__ (layout : option (list Widget.t)) (widget_separator : string)
  : IO t :=
  GetStdHandle <- ctypes_windll_kernel32 ;;
  ret {| _updates := 0;
         layout := layout;
         widget_separator := widget_separator;
         ci := {| size := 0; visible := false |};
         ci_handle := GetStdHandle (-11) |}.

Definition clear (self : t) : IO t :=
  name <- platform_system ;;
  (if (name =? "Windows")%string then system "cls" else system "clear") ;;
  ret (set_updates self (_updates self + 1)).

(** [print(f'\033[{lines}A\033[2K', end='')], with [lines] an [int] or
    a [str] *)
Definition partial_clear (self : t) (lines : Z + string) : IO t :=
  let lines := match lines with inl n => Str.of_int n | inr s => s end in
  builtin_print (esc ++ "[" ++ lines ++ "A" ++ esc ++ "[2K") ;;
  ret (set_updates self (_updates self + 1)).

Definition hide_cursor (self : t) : IO t :=
  _ <- ctypes_windll_kernel32 ;;
  info <- GetConsoleCursorInfo (ci_handle self) ;;
  let self := set_ci self info in
  let self := set_ci self {| size := size (ci self); visible := false |} in
  _ <- ctypes_windll_kernel32 ;;
  SetConsoleCursorInfo (ci_handle self) (ci self) ;;
  ret self.

Definition show_cursor (self : t) : IO t :=
  _ <- ctypes_windll_kernel32 ;;
  info <- GetConsoleCursorInfo (ci_handle self) ;;
  let self := set_ci self info in
  let self := set_ci self {| size := size (ci self); visible := true |} in
  _ <- ctypes_windll_kernel32 ;;
  SetConsoleCursorInfo (ci_handle self) (ci self) ;;
  ret self.

Section Printing.

Context {R : Rich}.

Definition print (self : t) (text : string) : IO unit :=
  console_print text None false.

Definition print_layout (self : t) : IO unit :=
  match layout self with
  | None => raise TypeError
  | Some widgets =>
      for_ widgets (fun widget =>
        Widget.print widget ;;
        builtin_print (widget_separator self))
  end.

End Printing.

End Screen.

(** ** An instance of [int] for the examples

    The builtin [int] on ASCII strings: blanks around, one sign, decimal
    digits, single underscores between digits, and no more than 4300
    digits.  (The builtin also reads the decimal digits of other scripts;
    strings here are ASCII.) *)

Definition is_space (c : ascii) : bool :=
  let n := nat_of_ascii c in
  ((9 <=? n) && (n <=? 13) || (n =? 32))%nat.

Definition digit (c : ascii) : option Z :=
  let n := Z.of_nat (nat_of_ascii c) in
  if (48 <=? n) && (n <=? 57) then Some (n - 48) else None.

Fixpoint lstrip (s : string) : string :=
  match s with
  | String c s' => if is_space c then lstrip s' else s
  | EmptyString => s
  end.

Fixpoint digits (s : string) (acc : Z) (after_digit : bool) : option Z :=
  match s with
  | EmptyString => if after_digit then Some acc else None
  | String c s' =>
      if Ascii.eqb c "_" then
        if after_digit then digits s' acc false else None
      else if is_space c then
        if after_digit then
          match lstrip s' with EmptyString => Some acc | _ => None end
        else None
      else
        match digit c with
        | Some d => digits s' (10 * acc + d) true
        | None => None
        end
  end.

Fixpoint count_digits (s : string) : nat :=
  match s with
  | EmptyString => 0
  | String c s' =>
      match digit c with
      | Some _ => S (count_digits s')
      | None => count_digits s'
      end
  end.

Definition decimal_int (s : string) : option Z :=
  if (4300 <? count_digits s)%nat then None else
  match lstrip s with
  | String c s' =>
      if Ascii.eqb c "-" then option_map Z.opp (digits s' 0 false)
      else if Ascii.eqb c "+" then digits s' 0 false
      else digits (String c s') 0 false
  | EmptyString => None
  end.

(** ** Vocabulary of the statements *)

(** [writes m evs r]: from every world, [m] ends with [r] and has written
    exactly [evs], touching nothing else. *)
Definition writes {A} (m : IO A) (evs : list event) (r : result A) : Prop :=
  forall w, m w = (r, emit evs w).

(** A world where nothing has happened yet, to observe what a method
    writes and how it ends. *)
Definition World0 : World :=
  {| platform := {| oprsys := "Linux"; windll := None |};
     term := [];
     stdin := [];
     console_cursor := {| size := 0; visible := true |} |}.

Definition output {A} (m : IO A) : list event := term (snd (m World0)).

Definition outcome {A} (m : IO A) : result A := fst (m World0).

(** [writer m]: [m] only writes, and what it writes and how it ends do not
    depend on the world it starts from. *)
Definition writer {A} (m : IO A) : Prop := exists evs r, writes m evs r.

Definition with_stdin (keys : list keyboard) (w : World) : World :=
  {| platform := platform w; term := term w; stdin := keys;
     console_cursor := console_cursor w |}.

(** The world once the console's cursor description is [c]. *)
Definition with_cursor (c : _CursorInfo) (w : World) : World :=
  {| platform := platform w; term := term w; stdin := stdin w;
     console_cursor := c |}.

(** The last [n] elements of a list (all of it when it is shorter). *)
Definition last_n {A} (n : nat) (l : list A) : list A :=
  skipn (List.length l - n) l.

(** The line a header writes, if there is a header. *)
Definition header_lines (header : option Header.t) : list event :=
  match header with
  | Some h =>
      [ConsolePrint (" " ++ Header.text h ++ " ") (Some (Header.style h)) false]
  | None => []
  end.

(** The lines of a buffer, as [ScrollingTextBox.print] writes them. *)
Definition buffer_lines (buffer : list string) : list event :=
  map (fun line => ConsolePrint line None false) buffer.

(** The two lines [Selector.print] writes for the pair [(label,
    description)] when its counter is [i]. *)
Definition choice_lines (i : Z) (label description : string) : list event :=
  [ConsolePrint ("[b]" ++ Str.of_int i ++ ". " ++ label ++ "[/]") None false;
   ConsolePrint ("   " ++ description) None false].

(** The line [DataFrame.print] writes for a text and its colour. *)
Definition data_line (text color : string) : event :=
  ConsolePrint ("[" ++ color ++ "]+[/" ++ color ++ "] " ++ text) None false.

Definition data_lines (data colors : list string) : list event :=
  map (fun '(text, color) => data_line text color) (combine data colors).

(** The pairs of all the mappings of a selector, in iteration order. *)
Definition flattened (choices : list Dict.t) : list (string * string) :=
  List.concat choices.

(** The lines written for a sequence of pairs by a counter that starts at
    [i]. *)
Fixpoint numbered_lines (i : Z) (pairs : list (string * string)) : list event :=
  match pairs with
  | [] => []
  | (label, description) :: rest =>
      choice_lines i label description ++ numbered_lines (i + 1) rest
  end.

(** The two lines [InfoFrame.print] writes for an entry: its first key in
    bold, then its first value. *)
Definition entry_lines (entry : Dict.t) : list event :=
  match entry with
  | (title, body) :: _ =>
      [ConsolePrint ("[bold]" ++ title ++ "[/]") None false;
       ConsolePrint body None false]
  | [] => []
  end.

Definition nonempty (entry : Dict.t) : bool :=
  match entry with
  | [] => false
  | _ :: _ => true
  end.

(** The widgets whose [print()] a layout can call at all: not the bare
    base class, not a [ScrollingTextBox] (its [print] wants a text), and an
    [InfoFrame] only when none of its entries is empty. *)
Definition can_render (widget : Widget.t) : bool :=
  match widget with
  | Widget.Base => false
  | Widget.OfScrollingTextBox _ => false
  | Widget.OfInfoFrame w => forallb nonempty (InfoFrame.data w)
  | Widget.OfHeader _ | Widget.OfDataFrame _ | Widget.OfSelector _
  | Widget.OfFixedLabel _ => true
  end.

(** [self.layout = widgets] *)
Definition with_layout (self : Screen.t) (widgets : list Widget.t) : Screen.t :=
  {| Screen._updates := Screen._updates self;
     Screen.layout := Some widgets;
     Screen.widget_separator := Screen.widget_separator self;
     Screen.ci := Screen.ci self;
     Screen.ci_handle := Screen.ci_handle self |}.

(** A caller using a screen: the calls that do not go through the layout. *)
Inductive screen_op : Type :=
| OpClear
| OpPartialClear (lines : Z + string)
| OpHideCursor
| OpShowCursor
| OpPrint (text : string).

Definition is_clear (op : screen_op) : bool :=
  match op with
  | OpClear | OpPartialClear _ => true
  | OpHideCursor | OpShowCursor | OpPrint _ => false
  end.

(** The prompt of [Selector.ask]. *)
Definition prompt (self : Selector.t) : string :=
  "[b][" ++ Selector.style self ++ "]+[/][/] ".

Section Vocabulary.

Context {R : Rich}.

(** What the console answers to a line that is to be printed. *)
Definition refusal_of (ev : event) : option refusal :=
  match ev with
  | ConsolePrint text style _ => refuses text style
  | ConsoleInput _ | StdoutWrite _ | System _ => None
  end.

Definition accepted (ev : event) : Prop := refusal_of ev = None.

(** Writing events one after the other through the console. *)
Definition play (evs : list event) : IO unit :=
  for_ evs (fun ev =>
    match ev with
    | ConsolePrint text style highlight => console_print text style highlight
    | _ => write ev
    end).

(** A caller appending the lines [texts] to a box, one call each, going on
    after a call that raised: the result of every call, the box and the
    world at the end. *)
Fixpoint appends (box : ScrollingTextBox.t) (texts : list string) (w : World)
  : list (result unit) * ScrollingTextBox.t * World :=
  match texts with
  | [] => ([], box, w)
  | text :: texts' =>
      let '(r, box', w') := ScrollingTextBox.print box text w in
      let '(rs, box'', w'') := appends box' texts' w' in
      (r :: rs, box'', w'')
  end.

(** One call of [ScrollingTextBox.print]: the oldest line goes exactly when
    the buffer is at or over the limit, the new line is added at the end,
    and the call ends as the writing of the whole new buffer ends. *)
Definition evicts_then_appends (box : ScrollingTextBox.t) (text : string) : Prop :=
  let old := ScrollingTextBox._line_buffer box in
  let kept :=
    if ScrollingTextBox.limit box <=? Z.of_nat (List.length old) then tl old else old in
  forall w,
    ScrollingTextBox.print box text w
    = (fst (play (buffer_lines (kept ++ [text])) w),
       {| ScrollingTextBox._line_buffer := kept ++ [text];
          ScrollingTextBox.limit := ScrollingTextBox.limit box |},
       snd (play (buffer_lines (kept ++ [text])) w)).

(** The behaviour of a box built with [limit] to which [texts] are
    appended: the buffer has [limit] lines after construction and after the
    appends, no append fails for want of a line to evict, the buffer holds
    the last [limit] appended lines once more than [limit] were appended,
    and the next call evicts and appends. *)
Definition scrolls (limit : Z) (texts : list string) : Prop :=
  let box := ScrollingTextBox.__init__ limit in
  Z.of_nat (List.length (ScrollingTextBox._line_buffer box)) = limit
  /\ forall w, exists results box' w',
       appends box texts w = (results, box', w')
       /\ Forall (fun r => r <> Raise IndexError) results
       /\ ScrollingTextBox.limit box' = limit
       /\ Z.of_nat (List.length (ScrollingTextBox._line_buffer box')) = limit
       /\ (limit < Z.of_nat (List.length texts) ->
           ScrollingTextBox._line_buffer box' = last_n (Z.to_nat limit) texts)
       /\ forall text, evicts_then_appends box' text.

(** What is said of every [DataFrame]: after the header, exactly
    [min(len(data), len(colors))] lines, the [i]-th made of the [i]-th text
    and the [i]-th colour. *)
Definition zips (self : DataFrame.t) : Prop :=
  exists lines,
    writes (DataFrame.print self)
      (header_lines (DataFrame.header self) ++ lines) (Ok tt)
    /\ List.length lines
       = Nat.min (List.length (DataFrame.data self))
                 (List.length (DataFrame.colors self))
    /\ forall i text color,
        nth_error (DataFrame.data self) i = Some text ->
        nth_error (DataFrame.colors self) i = Some color ->
        nth_error lines i = Some (data_line text color).

(** The body of the two loops of [Selector.print]. *)
Definition print_choice (choice : Dict.t) (_key : string) (_i : Z) : IO Z :=
  console_print ("[b]" ++ Str.of_int _i ++ ". " ++ _key ++ "[/]") None false ;;
  description <- Dict.getitem choice _key ;;
  console_print ("   " ++ description) None false ;;
  ret (_i + 1).

(** What [Screen.print_layout] has written once the widgets [widgets] are
    done: each one's own output, then the separator. *)
Definition rendered (separator : string) (widgets : list Widget.t) : list event :=
  flat_map
    (fun widget => (output (Widget.print widget) ++ [StdoutWrite separator])%list)
    widgets.

Definition renders (widget : Widget.t) : Prop :=
  outcome (Widget.print widget) = Ok tt.

(** What [Selector.ask] writes before the prompt. *)
Definition shown (self : Selector.t) (print_ : bool) : list event :=
  if print_ then output (Selector.print self) else [].

Definition printable (op : screen_op) : Prop :=
  match op with
  | OpPrint text => refuses text None = None
  | _ => True
  end.

Definition apply_op (op : screen_op) (self : Screen.t) : IO Screen.t :=
  match op with
  | OpClear => Screen.clear self
  | OpPartialClear lines => Screen.partial_clear self lines
  | OpHideCursor => Screen.hide_cursor self
  | OpShowCursor => Screen.show_cursor self
  | OpPrint text => Screen.print self text ;; ret self
  end.

Definition apply_ops (ops : list screen_op) (self : Screen.t) : IO Screen.t :=
  for_acc ops self apply_op.

End Vocabulary.

(** ** Objects for the examples *)

Definition newline : string := String (ascii_of_nat 10) "".

Definition a_header : Header.t :=
  {| Header.text := "rovnoui"; Header.style := "bold white on blue" |}.

Definition a_label : FixedLabel.t :=
  {| FixedLabel.text := "hello"; FixedLabel.limit := 10 |}.

Definition a_selector : Selector.t :=
  {| Selector.header := Some a_header;
     Selector.choices := [[("a", "first"); ("b", "second")]; [("c", "third")]];
     Selector.style := "blue" |}.

(** A data frame whose second text is a closing tag that closes nothing. *)
Definition a_stray_frame : DataFrame.t :=
  {| DataFrame.data := ["x"; "[/y]"; "z"];
     DataFrame.header := None;
     DataFrame.colors := ["red"; "green"; "blue"] |}.

(** A screen object with the given layout, as [Screen.__init__] leaves it
    on Windows. *)
Definition a_screen (widgets : list Widget.t) : Screen.t :=
  {| Screen._updates := 0;
     Screen.layout := Some widgets;
     Screen.widget_separator := newline;
     Screen.ci := {| size := 0; visible := false |};
     Screen.ci_handle := 7 |}.

(** A Windows console, and a world on it. *)
Definition Windows : Platform :=
  {| oprsys := "Windows"; windll := Some (fun _ => 7) |}.

Definition World_Windows : World :=
  {| platform := Windows;
     term := [];
     stdin := [];
     console_cursor := {| size := 25; visible := true |} |}.

(** ** A console for the examples

    It follows [rich] on what the examples use.  Tags are read as [rich]
    reads them: a bracket, a first character among [a-z # / @], then no
    other bracket up to the closing one, unless an odd number of
    backslashes stands before; a closing tag met while no tag is open is
    refused ([MarkupError]), as [rich] does.  (Closing tags are not matched
    by name here.)  A style is looked up in a short table; any other is
    refused ([MissingStyle]). *)

Inductive scan : Type :=
| Plain (backslash : bool)
| Bracket (escaped : bool)
| InTag (closing escaped backslash : bool).

Definition tag_start (c : ascii) : bool :=
  let n := nat_of_ascii c in
  ((97 <=? n) && (n <=? 122) || (n =? 35) || (n =? 47) || (n =? 64))%nat.

Fixpoint stray_close (s : string) (state : scan) (depth : nat) : bool :=
  match s with
  | EmptyString => false
  | String c s' =>
      match state with
      | Plain backslash =>
          if Ascii.eqb c "\" then stray_close s' (Plain (negb backslash)) depth
          else if Ascii.eqb c "[" then stray_close s' (Bracket backslash) depth
          else stray_close s' (Plain false) depth
      | Bracket escaped =>
          if tag_start c then stray_close s' (InTag (Ascii.eqb c "/") escaped false) depth
          else if Ascii.eqb c "[" then stray_close s' (Bracket false) depth
          else if Ascii.eqb c "\" then stray_close s' (Plain true) depth
          else stray_close s' (Plain false) depth
      | InTag closing escaped backslash =>
          if Ascii.eqb c "]" then
            if escaped then stray_close s' (Plain false) depth
            else if closing then
              match depth with
              | O => true
              | S depth' => stray_close s' (Plain false) depth'
              end
            else stray_close s' (Plain false) (S depth)
          else if Ascii.eqb c "[" then stray_close s' (Bracket backslash) depth
          else if Ascii.eqb c "\" then
            stray_close s' (InTag closing escaped (negb backslash)) depth
          else stray_close s' (InTag closing escaped false) depth
      end
  end.

Definition known_styles : list string :=
  ["bold white on blue"; "bold"; "blue"; "red"; "green"].

Definition example_console : Rich :=
  {| refuses text style :=
       if stray_close text (Plain false) 0 then Some BadMarkup
       else
         match style with
         | Some s =>
             if existsb (String.eqb s) known_styles then None else Some UnknownStyle
         | None => None
         end |}.
(** * Properties *)

(** ** Strings *)

Lemma length_append (a b : string) :
  String.length (a ++ b) = (String.length a + String.length b)%nat.
Proof. induction a as [|c a IH]; simpl; [reflexivity | now rewrite IH]. Qed.

Lemma length_repeat (s : string) (n : nat) :
  String.length (Str.repeat s n) = (n * String.length s)%nat.
Proof.
  induction n as [|n IH]; simpl; [reflexivity|].
  rewrite length_append, IH. reflexivity.
Qed.

Lemma length_take (n : nat) (s : string) :
  String.length (substring 0 n s) = Nat.min n (String.length s).
Proof.
  revert s; induction n as [|n IH]; intros [|c s]; simpl; try reflexivity.
  now rewrite IH.
Qed.

Lemma take_append (a b : string) : substring 0 (String.length a) (a ++ b) = a.
Proof. induction a as [|c a IH]; simpl; [now destruct b | now rewrite IH]. Qed.

Lemma take_all (s : string) : substring 0 (String.length s) s = s.
Proof. induction s as [|c s IH]; simpl; [reflexivity | now rewrite IH]. Qed.

Lemma drop_append (a b : string) :
  substring (String.length a) (String.length b) (a ++ b) = b.
Proof. induction a as [|c a IH]; simpl; [apply take_all | exact IH]. Qed.

Lemma take_split (n : nat) (s : string) :
  exists rest, s = substring 0 n s ++ rest
               /\ String.length rest = (String.length s - n)%nat.
Proof.
  revert s; induction n as [|n IH]; intros s.
  - exists s. destruct s; simpl; auto.
  - destruct s as [|c s]; simpl.
    + exists "". auto.
    + destruct (IH s) as (rest & E & L). exists rest. split; [now rewrite <- E | exact L].
Qed.

Lemma prefix_append (a b : string) : String.prefix a (a ++ b) = true.
Proof.
  induction a as [|c a IH]; simpl; [now destruct b|].
  destruct (ascii_dec c c) as [_|N]; [exact IH | now elim N].
Qed.

Lemma prefix_refl (a : string) : String.prefix a a = true.
Proof.
  induction a as [|c a IH]; simpl; [reflexivity|].
  destruct (ascii_dec c c) as [_|N]; [exact IH | now elim N].
Qed.

Lemma endswith_append (a b : string) : Str.endswith (a ++ b) b = true.
Proof.
  unfold Str.endswith. rewrite length_append.
  apply andb_true_iff; split.
  - apply Nat.leb_le. lia.
  - replace (String.length a + String.length b - String.length b)%nat
      with (String.length a) by lia.
    rewrite drop_append. apply String.eqb_refl.
Qed.

Lemma len_append (a b : string) : Str.len (a ++ b) = Str.len a + Str.len b.
Proof. unfold Str.len. rewrite length_append. lia. Qed.

Lemma len_mul_space (n : Z) : Str.len (Str.mul " " n) = Z.max 0 n.
Proof. unfold Str.len, Str.mul. rewrite length_repeat. simpl. lia. Qed.

Lemma len_slice_to (s : string) (stop : Z) :
  Str.len (Str.slice_to s stop)
  = if 0 <=? stop then Z.min stop (Str.len s) else Z.max 0 (Str.len s + stop).
Proof.
  unfold Str.slice_to, Str.len.
  destruct (0 <=? stop) eqn:E; rewrite length_take.
  - apply Z.leb_le in E. lia.
  - apply Z.leb_gt in E. lia.
Qed.

(** ** FixedLabel *)

Example FixedLabel_hello :
  FixedLabel._construct {| FixedLabel.text := "hello"; FixedLabel.limit := 10 |}
  = "hello     ".
Proof. reflexivity. Qed.

(** C2.  For a limit of at least 3 the label has exactly [limit]
    characters.  A text that fits is kept at the front, followed by spaces
    when it is shorter and alone when it has the very length; a longer text
    gives a label that ends in three dots and agrees with the text on the
    first [limit - 3] characters. *)
Theorem FixedLabel_construct_width (self : FixedLabel.t) :
  3 <= FixedLabel.limit self ->
  let text := FixedLabel.text self in
  let limit := FixedLabel.limit self in
  let r := FixedLabel._construct self in
  Str.len r = limit
  /\ (Str.len text <= limit ->
      Str.startswith r text = true
      /\ (Str.len text < limit -> r = text ++ Str.mul " " (limit - Str.len text))
      /\ (Str.len text = limit -> r = text))
  /\ (Str.len text > limit ->
      Str.endswith r "..." = true
      /\ Str.slice_to r (limit - 3) = Str.slice_to text (limit - 3)).
Proof.
  intros Hlim text limit r. subst r. unfold FixedLabel._construct.
  fold text limit.
  destruct (Str.len text <? limit) eqn:Lt; [apply Z.ltb_lt in Lt | apply Z.ltb_ge in Lt].
  - split; [rewrite len_append, len_mul_space; lia|].
    split; [intros _ | lia].
    split; [apply prefix_append|]. split; [reflexivity | lia].
  - destruct (Str.len text =? limit) eqn:Eq; [apply Z.eqb_eq in Eq | apply Z.eqb_neq in Eq].
    + split; [exact Eq|]. split; [intros _ | lia].
      split; [apply prefix_refl|]. split; [lia | reflexivity].
    + assert (Gt : limit < Str.len text) by lia.
      assert (Hk : Str.len (Str.slice_to text (limit - 3)) = limit - 3).
      { rewrite len_slice_to. destruct (0 <=? limit - 3) eqn:E; [lia|].
        apply Z.leb_gt in E. lia. }
      split; [rewrite len_append, Hk; change (Str.len "...") with 3; lia|].
      split; [lia | intros _].
      split; [apply endswith_append|].
      unfold Str.slice_to at 1.
      replace (0 <=? limit - 3) with true by (symmetry; apply Z.leb_le; lia).
      replace (Z.to_nat (limit - 3))
        with (String.length (Str.slice_to text (limit - 3)))
        by (unfold Str.len in Hk; lia).
      apply take_append.
Qed.

Lemma FixedLabel_construct_width_witness :
  Str.len (FixedLabel._construct
             {| FixedLabel.text := "hello world"; FixedLabel.limit := 8 |}) = 8
  /\ FixedLabel._construct
       {| FixedLabel.text := "hello world"; FixedLabel.limit := 8 |} = "hello...".
Proof.
  split; [|reflexivity].
  apply (FixedLabel_construct_width
           {| FixedLabel.text := "hello world"; FixedLabel.limit := 8 |}).
  simpl. lia.
Defined.

(** C9.  With a limit below 3 and a text longer than the limit the third
    branch is taken with the negative slice bound [limit - 3].  When the
    text has at least [3 - limit] characters, the label is the text without
    its last [3 - limit] characters, followed by three dots: it has
    [len(text) + limit] characters.  In every case its length is not
    [limit]. *)
Theorem FixedLabel_construct_small_limit (self : FixedLabel.t) :
  FixedLabel.limit self < 3 ->
  Str.len (FixedLabel.text self) > FixedLabel.limit self ->
  let text := FixedLabel.text self in
  let limit := FixedLabel.limit self in
  let r := FixedLabel._construct self in
  limit - 3 < 0
  /\ r = Str.slice_to text (limit - 3) ++ "..."
  /\ (3 - limit <= Str.len text ->
      (exists kept dropped,
          text = kept ++ dropped
          /\ Str.len dropped = 3 - limit
          /\ r = kept ++ "...")
      /\ Str.len r = Str.len text + limit)
  /\ Str.len r <> limit.
Proof.
  intros Hlim Hlen text limit r. subst r. unfold FixedLabel._construct.
  fold text limit. fold text limit in Hlim, Hlen.
  replace (Str.len text <? limit) with false by (symmetry; apply Z.ltb_ge; lia).
  replace (Str.len text =? limit) with false by (symmetry; apply Z.eqb_neq; lia).
  assert (Hneg : (0 <=? limit - 3) = false) by (apply Z.leb_gt; lia).
  split; [lia|]. split; [reflexivity|].
  split.
  - intros Hfit. split.
    + unfold Str.slice_to. rewrite Hneg.
      destruct (take_split (Z.to_nat (Str.len text + (limit - 3))) text)
        as (rest & E & L).
      exists (substring 0 (Z.to_nat (Str.len text + (limit - 3))) text), rest.
      split; [exact E|]. split; [|reflexivity].
      unfold Str.len in *. lia.
    + rewrite len_append, len_slice_to, Hneg. change (Str.len "...") with 3. lia.
  - rewrite len_append, len_slice_to, Hneg. change (Str.len "...") with 3.
    unfold Str.len in *. lia.
Qed.

Lemma FixedLabel_construct_small_limit_witness :
  FixedLabel._construct {| FixedLabel.text := "hello"; FixedLabel.limit := 2 |}
  = "hell..."
  /\ Str.len (FixedLabel._construct
                {| FixedLabel.text := "hello"; FixedLabel.limit := 2 |}) <> 2.
Proof.
  split; [reflexivity|].
  apply (FixedLabel_construct_small_limit
           {| FixedLabel.text := "hello"; FixedLabel.limit := 2 |});
    reflexivity.
Defined.

(** ** FixedLabel: when the width is kept *)

(** The length of a label, in all cases. *)
Lemma FixedLabel_len_construct (self : FixedLabel.t) :
  let text := FixedLabel.text self in
  let limit := FixedLabel.limit self in
  Str.len (FixedLabel._construct self)
  = if Str.len text <=? limit then limit
    else if 3 <=? limit then limit
    else Z.max 0 (Str.len text + limit - 3) + 3.
Proof.
  intros text limit. unfold FixedLabel._construct. fold text limit.
  assert (Hpos : 0 <= Str.len text) by (unfold Str.len; lia).
  destruct (Str.len text <=? limit) eqn:Le;
    [apply Z.leb_le in Le | apply Z.leb_gt in Le].
  - destruct (Str.len text <? limit) eqn:Lt;
      [apply Z.ltb_lt in Lt | apply Z.ltb_ge in Lt].
    + rewrite len_append, len_mul_space. lia.
    + replace (Str.len text =? limit) with true by (symmetry; apply Z.eqb_eq; lia).
      lia.
  - replace (Str.len text <? limit) with false by (symmetry; apply Z.ltb_ge; lia).
    replace (Str.len text =? limit) with false by (symmetry; apply Z.eqb_neq; lia).
    rewrite len_append, len_slice_to. change (Str.len "...") with 3.
    destruct (3 <=? limit) eqn:E; [apply Z.leb_le in E | apply Z.leb_gt in E].
    + replace (0 <=? limit - 3) with true by (symmetry; apply Z.leb_le; lia). lia.
    + replace (0 <=? limit - 3) with false by (symmetry; apply Z.leb_gt; lia). lia.
Qed.

(** X1.  The label has exactly [limit] characters if and only if the limit is
    at least 3 or the text fits in it. *)
Theorem FixedLabel_width_iff (self : FixedLabel.t) :
  Str.len (FixedLabel._construct self) = FixedLabel.limit self
  <-> (3 <= FixedLabel.limit self
       \/ Str.len (FixedLabel.text self) <= FixedLabel.limit self).
Proof.
  rewrite FixedLabel_len_construct.
  assert (Hpos : 0 <= Str.len (FixedLabel.text self)) by (unfold Str.len; lia).
  destruct (Str.len (FixedLabel.text self) <=? FixedLabel.limit self) eqn:Le;
    [apply Z.leb_le in Le | apply Z.leb_gt in Le]; [split; auto|].
  destruct (3 <=? FixedLabel.limit self) eqn:E;
    [apply Z.leb_le in E | apply Z.leb_gt in E]; split; lia.
Qed.

(** X2.  A label that has its width is left alone when it is made a label
    again with the same limit. *)
Theorem FixedLabel_construct_idempotent (self : FixedLabel.t) :
  3 <= FixedLabel.limit self
  \/ Str.len (FixedLabel.text self) <= FixedLabel.limit self ->
  FixedLabel._construct
    {| FixedLabel.text := FixedLabel._construct self;
       FixedLabel.limit := FixedLabel.limit self |}
  = FixedLabel._construct self.
Proof.
  intros H.
  assert (Hlen : Str.len (FixedLabel._construct self) = FixedLabel.limit self).
  { rewrite FixedLabel_len_construct.
    destruct (Str.len (FixedLabel.text self) <=? FixedLabel.limit self) eqn:Le;
      [reflexivity | apply Z.leb_gt in Le].
    destruct (3 <=? FixedLabel.limit self) eqn:E; [reflexivity | apply Z.leb_gt in E].
    lia. }
  unfold FixedLabel._construct at 1. cbn [FixedLabel.text FixedLabel.limit].
  rewrite Hlen, Z.ltb_irrefl, Z.eqb_refl. reflexivity.
Qed.

Lemma FixedLabel_construct_idempotent_witness :
  FixedLabel._construct
    {| FixedLabel.text := "hello..."; FixedLabel.limit := 8 |}
  = "hello...".
Proof.
  apply (FixedLabel_construct_idempotent
           {| FixedLabel.text := "hello world"; FixedLabel.limit := 8 |}).
  left. simpl. lia.
Defined.

(** ** The monad *)

Lemma emit_nil (w : World) : emit [] w = w.
Proof. destruct w; unfold emit; simpl. now rewrite app_nil_r. Qed.

Lemma emit_emit (a b : list event) (w : World) : emit b (emit a w) = emit (a ++ b) w.
Proof. unfold emit; simpl. now rewrite app_assoc. Qed.

Section Writes.

Context {A B : Type}.

Lemma writes_ret (a : A) : writes (ret a) [] (Ok a).
Proof. intros w. unfold ret. now rewrite emit_nil. Qed.

Lemma writes_raise (e : exn) : writes (@raise A e) [] (Raise e).
Proof. intros w. unfold raise. now rewrite emit_nil. Qed.

Lemma writes_bind (m : IO A) (k : A -> IO B) evs a evs' r :
  writes m evs (Ok a) -> writes (k a) evs' r -> writes (bind m k) (evs ++ evs') r.
Proof.
  intros Hm Hk w. unfold bind. rewrite Hm, Hk. now rewrite emit_emit.
Qed.

Lemma writes_bind_raise (m : IO A) (k : A -> IO B) evs e :
  writes m evs (Raise e) -> writes (bind m k) evs (Raise e).
Proof. intros Hm w. unfold bind. now rewrite Hm. Qed.

(** What a writer writes and how it ends is what is observed from
    [World0]. *)
Lemma writes_output (m : IO A) evs r : writes m evs r -> output m = evs.
Proof. intros H. unfold output. now rewrite H. Qed.

Lemma writes_outcome (m : IO A) evs r : writes m evs r -> outcome m = r.
Proof. intros H. unfold outcome. now rewrite H. Qed.

Lemma writes_observed (m : IO A) evs r :
  writes m evs r -> writes m (output m) (outcome m).
Proof.
  intros H. now rewrite (writes_output _ _ _ H), (writes_outcome _ _ _ H).
Qed.

End Writes.

Lemma writes_write (ev : event) : writes (write ev) [ev] (Ok tt).
Proof. intros w. reflexivity. Qed.

(** A loop of writers that succeed writes their events one after the
    other. *)
Lemma writes_for {A} (xs : list A) (body : A -> IO unit) (evs : A -> list event) :
  (forall x, In x xs -> writes (body x) (evs x) (Ok tt)) ->
  writes (for_ xs body) (flat_map evs xs) (Ok tt).
Proof.
  induction xs as [|x xs IH]; intros H; simpl.
  - apply writes_ret.
  - eapply writes_bind; [apply H; now left|].
    apply IH. intros y Hy. apply H. now right.
Qed.

(** The loop stops at the first body that raises. *)
Lemma writes_for_raise {A} (before : list A) (x : A) (after : list A)
      (body : A -> IO unit) (evs : A -> list event) (evx : list event) (e : exn) :
  (forall y, In y before -> writes (body y) (evs y) (Ok tt)) ->
  writes (body x) evx (Raise e) ->
  writes (for_ (before ++ x :: after) body) (flat_map evs before ++ evx) (Raise e).
Proof.
  induction before as [|y before IH]; intros H Hx; simpl.
  - now apply writes_bind_raise.
  - rewrite <- app_assoc. eapply writes_bind; [apply H; now left|].
    apply IH; [|exact Hx]. intros z Hz. apply H. now right.
Qed.

Lemma for_app {A} (a b : list A) (body : A -> IO unit) (w : World) :
  for_ (a ++ b) body w = (for_ a body ;; for_ b body) w.
Proof.
  revert w; induction a as [|x a IH]; intros w; [reflexivity|].
  cbn [app for_]. unfold bind.
  destruct (body x w) as [[u|e] w1]; [|reflexivity].
  rewrite IH. reflexivity.
Qed.

(** Programs that agree on every world. *)
Lemma writes_ext {A} (m m' : IO A) evs r :
  (forall w, m w = m' w) -> writes m' evs r -> writes m evs r.
Proof. intros H Hm w. now rewrite H. Qed.

Lemma bind_ext {A B} (m m' : IO A) (k k' : A -> IO B) :
  (forall w, m w = m' w) -> (forall a w, k a w = k' a w) ->
  forall w, bind m k w = bind m' k' w.
Proof.
  intros Hm Hk w. unfold bind. rewrite Hm.
  destruct (m' w) as [[a|e] w']; [apply Hk | reflexivity].
Qed.

Lemma bind_assoc {A B C} (m : IO A) (k : A -> IO B) (h : B -> IO C) (w : World) :
  bind (bind m k) h w = bind m (fun a => bind (k a) h) w.
Proof.
  unfold bind. destruct (m w) as [[a|e] w']; reflexivity.
Qed.

Lemma bind_ret_tt (m : IO unit) (w : World) : (m ;; ret tt) w = m w.
Proof.
  unfold bind, ret. destruct (m w) as [[[]|e] w']; reflexivity.
Qed.

(** ** The console *)

Section ConsoleFacts.

Context {R : Rich}.

Lemma writes_console_print text style highlight :
  refuses text style = None ->
  writes (console_print text style highlight)
    [ConsolePrint text style highlight] (Ok tt).
Proof. intros H. unfold console_print. rewrite H. apply writes_write. Qed.

Lemma writes_console_print_refused text style highlight r :
  refuses text style = Some r ->
  writes (console_print text style highlight) [] (Raise (exn_of r)).
Proof. intros H. unfold console_print. rewrite H. apply writes_raise. Qed.

(** Events that the console accepts are all written, in order. *)
Lemma play_accepted (evs : list event) :
  Forall accepted evs -> writes (play evs) evs (Ok tt).
Proof.
  intros H. unfold play.
  replace evs with (flat_map (fun ev => [ev]) evs) at 2
    by (clear H; induction evs as [|ev evs IH]; simpl; [reflexivity | now rewrite IH]).
  apply writes_for. intros ev Hin.
  rewrite Forall_forall in H. specialize (H ev Hin).
  destruct ev; try apply writes_write.
  now apply writes_console_print.
Qed.

(** At the first event the console refuses, what comes before has been
    written and the refusal is raised. *)
Lemma play_refused (before : list event) (ev : event) (after : list event) r :
  Forall accepted before -> refusal_of ev = Some r ->
  writes (play (before ++ ev :: after)) before (Raise (exn_of r)).
Proof.
  intros H Hev. unfold play.
  replace before with (flat_map (fun ev => [ev]) before ++ [])%list at 2.
  - apply writes_for_raise.
    + intros y Hin. rewrite Forall_forall in H. specialize (H y Hin).
      destruct y; try apply writes_write. now apply writes_console_print.
    + destruct ev; try discriminate. now apply writes_console_print_refused.
  - rewrite app_nil_r. clear H.
    induction before as [|x xs IH]; simpl; [reflexivity | now rewrite IH].
Qed.

Lemma play_app (a b : list event) (w : World) :
  play (a ++ b) w = (play a ;; play b) w.
Proof. apply for_app. Qed.

(** Writing through the console ends normally or with a refusal. *)
Lemma play_result (evs : list event) (w : World) :
  fst (play evs w) = Ok tt \/ exists r, fst (play evs w) = Raise (exn_of r).
Proof.
  revert w. induction evs as [|ev evs IH]; intros w; [now left|].
  unfold play. cbn [for_]. fold (play evs). unfold bind.
  destruct ev as [text style hl| | |];
    try (unfold write; apply IH).
  unfold console_print. destruct (refuses text style) as [r|].
  - right. now exists r.
  - unfold write. apply IH.
Qed.

(** The events [play] has written, when it ends normally. *)
Lemma play_ok (evs : list event) (w : World) :
  fst (play evs w) = Ok tt -> Forall accepted evs.
Proof.
  revert w. induction evs as [|ev evs IH]; intros w; [constructor|].
  unfold play. cbn [for_]. fold (play evs). unfold bind.
  destruct ev as [text style hl| | |];
    try (unfold write; intros H; constructor; [reflexivity | exact (IH _ H)]).
  unfold console_print, accepted at 1. cbn [refusal_of].
  destruct (refuses text style) as [r|] eqn:E.
  - discriminate.
  - unfold write. intros H. constructor; [exact E | exact (IH _ H)].
Qed.

Lemma for_prints_play (buffer : list string) (w : World) :
  for_ buffer (fun line => console_print line None false) w
  = play (buffer_lines buffer) w.
Proof.
  revert w. induction buffer as [|line buffer IH]; intros w; [reflexivity|].
  unfold play, buffer_lines. cbn [map for_]. apply bind_ext; [reflexivity|].
  intros _ w'. apply IH.
Qed.

Lemma print_header_play (header : option Header.t) (w : World) :
  print_header header w = play (header_lines header) w.
Proof.
  destruct header as [h|]; [|reflexivity].
  unfold play. cbn [header_lines for_ print_header]. unfold Header.print.
  now rewrite bind_ret_tt.
Qed.

End ConsoleFacts.

(** ** ScrollingTextBox *)

Lemma last_n_length {A} (n : nat) (l : list A) :
  (n <= List.length l)%nat -> List.length (last_n n l) = n.
Proof. intros H. unfold last_n. rewrite length_skipn. lia. Qed.

Lemma last_n_shift {A} (n : nat) (x t : A) (b ts : list A) :
  List.length (x :: b) = n ->
  last_n n ((b ++ [t]) ++ ts) = last_n n ((x :: b) ++ t :: ts).
Proof.
  intros H. unfold last_n. rewrite <- app_assoc. simpl app.
  replace (List.length (b ++ t :: ts) - n)%nat with (List.length ts)
    by (rewrite length_app; simpl in *; lia).
  replace (List.length (x :: b ++ t :: ts) - n)%nat with (S (List.length ts))
    by (simpl List.length in *; rewrite length_app; simpl List.length; lia).
  reflexivity.
Qed.

Lemma last_n_app_short {A} (n : nat) (l ts : list A) :
  (List.length l <= n)%nat -> (n <= List.length ts)%nat ->
  last_n n (l ++ ts) = last_n n ts.
Proof.
  intros Hl Hts. unfold last_n. rewrite skipn_app, length_app.
  rewrite (skipn_all2 l) by lia. simpl. f_equal. lia.
Qed.

Lemma skipn_repeat {A} (x : A) (k n : nat) :
  skipn k (List.repeat x n) = List.repeat x (n - k).
Proof.
  revert k; induction n as [|n IH]; intros [|k]; simpl; try reflexivity.
  apply IH.
Qed.

Lemma last_n_padding {A} (x : A) (n : nat) (ts : list A) :
  (List.length ts <= n)%nat ->
  last_n n (List.repeat x n ++ ts) = (List.repeat x (n - List.length ts) ++ ts)%list.
Proof.
  intros H. unfold last_n. rewrite length_app, repeat_length, skipn_app.
  rewrite skipn_repeat, repeat_length.
  replace (n + List.length ts - n)%nat with (List.length ts) by lia.
  replace (List.length ts - n)%nat with 0%nat by lia. reflexivity.
Qed.

Section ScrollingTextBoxFacts.

Context {R : Rich}.

(** One call, on a buffer that is not empty or is below the limit. *)
Lemma ScrollingTextBox_print_step (box : ScrollingTextBox.t) (text : string) :
  ScrollingTextBox._line_buffer box <> []
  \/ Z.of_nat (List.length (ScrollingTextBox._line_buffer box))
     < ScrollingTextBox.limit box ->
  evicts_then_appends box text.
Proof.
  intros H. unfold evicts_then_appends. intros w. unfold ScrollingTextBox.print.
  destruct (ScrollingTextBox.limit box
            <=? Z.of_nat (List.length (ScrollingTextBox._line_buffer box))) eqn:E.
  - destruct (ScrollingTextBox._line_buffer box) as [|x b] eqn:Eb.
    + apply Z.leb_le in E. destruct H as [H|H]; [now elim H | simpl in H, E; lia].
    + cbn [pop0 ret tl]. rewrite for_prints_play.
      destruct (play (buffer_lines (b ++ [text])) w); reflexivity.
  - cbn [ret]. rewrite for_prints_play.
    destruct (play _ w); reflexivity.
Qed.

(** One call on an empty buffer at or over its limit: [pop(0)] raises, and
    nothing changes. *)
Lemma ScrollingTextBox_print_empty (box : ScrollingTextBox.t) (text : string) (w : World) :
  ScrollingTextBox._line_buffer box = [] ->
  ScrollingTextBox.limit box <= 0 ->
  ScrollingTextBox.print box text w = (Raise IndexError, box, w).
Proof.
  intros Hb Hl. unfold ScrollingTextBox.print. rewrite Hb. simpl.
  replace (ScrollingTextBox.limit box <=? 0) with true
    by (symmetry; apply Z.leb_le; lia).
  reflexivity.
Qed.

(** The invariant of the appends: a buffer that holds exactly [limit >= 1]
    lines keeps doing so and slides over the lines appended, whether the
    console accepts them or not; no call raises [IndexError]. *)
Lemma appends_full (texts : list string) :
  forall (box : ScrollingTextBox.t) (w : World),
    let n := List.length (ScrollingTextBox._line_buffer box) in
    (1 <= n)%nat ->
    ScrollingTextBox.limit box = Z.of_nat n ->
    exists results w',
      appends box texts w
      = (results,
         {| ScrollingTextBox._line_buffer :=
              last_n n (ScrollingTextBox._line_buffer box ++ texts);
            ScrollingTextBox.limit := ScrollingTextBox.limit box |}, w')
      /\ List.length results = List.length texts
      /\ Forall (fun r => r <> Raise IndexError) results.
Proof.
  induction texts as [|t ts IH]; intros box w n Hn Hlim.
  - exists [], w. cbn [appends]. unfold last_n.
    rewrite app_nil_r. fold n. rewrite Nat.sub_diag. simpl.
    split; [now destruct box | split; [reflexivity | constructor]].
  - destruct (ScrollingTextBox._line_buffer box) as [|x b] eqn:Eb;
      [simpl in n; lia|].
    assert (Hstep : evicts_then_appends box t).
    { apply ScrollingTextBox_print_step. left. rewrite Eb. discriminate. }
    unfold evicts_then_appends in Hstep. rewrite Eb in Hstep.
    replace (ScrollingTextBox.limit box <=? Z.of_nat (List.length (x :: b)))
      with true in Hstep by (symmetry; apply Z.leb_le; fold n; lia).
    simpl tl in Hstep. cbn [appends]. rewrite Hstep.
    set (box1 := {| ScrollingTextBox._line_buffer := b ++ [t];
                    ScrollingTextBox.limit := ScrollingTextBox.limit box |}).
    assert (Hlen1 : List.length (ScrollingTextBox._line_buffer box1) = n).
    { subst box1 n. simpl. rewrite length_app. simpl. lia. }
    destruct (IH box1 (snd (play (buffer_lines (b ++ [t])) w)))
      as (rs & w' & Hw' & Hlen & Hrs).
    + rewrite Hlen1. exact Hn.
    + rewrite Hlen1. exact Hlim.
    + rewrite Hw'. rewrite Hlen1.
      exists (fst (play (buffer_lines (b ++ [t])) w) :: rs), w'.
      subst box1. cbn [ScrollingTextBox._line_buffer ScrollingTextBox.limit].
      rewrite (last_n_shift n x t b ts) by reflexivity.
      split; [reflexivity|]. split; [simpl; now rewrite Hlen|].
      constructor; [|exact Hrs].
      destruct (play_result (buffer_lines (b ++ [t])) w) as [E|(r & E)];
        rewrite E; [discriminate | destruct r; discriminate].
Qed.

(** The same appends when the console accepts every line: every call
    ends normally and writes the whole buffer. *)
Lemma appends_accepted (texts : list string) :
  forall (box : ScrollingTextBox.t) (w : World),
    let n := List.length (ScrollingTextBox._line_buffer box) in
    (1 <= n)%nat ->
    ScrollingTextBox.limit box = Z.of_nat n ->
    Forall accepted (buffer_lines (ScrollingTextBox._line_buffer box)) ->
    Forall accepted (buffer_lines texts) ->
    exists box' evs,
      appends box texts w
      = (List.repeat (Ok tt) (List.length texts), box', emit evs w)
      /\ List.length evs = (List.length texts * n)%nat.
Proof.
  induction texts as [|t ts IH]; intros box w n Hn Hlim Hbuf Htexts.
  - exists box, []. cbn [appends]. rewrite emit_nil. auto.
  - destruct (ScrollingTextBox._line_buffer box) as [|x b] eqn:Eb;
      [simpl in n; lia|].
    assert (Hstep : evicts_then_appends box t).
    { apply ScrollingTextBox_print_step. left. rewrite Eb. discriminate. }
    unfold evicts_then_appends in Hstep. rewrite Eb in Hstep.
    replace (ScrollingTextBox.limit box <=? Z.of_nat (List.length (x :: b)))
      with true in Hstep by (symmetry; apply Z.leb_le; fold n; lia).
    simpl tl in Hstep. cbn [appends]. rewrite Hstep.
    inversion Hbuf as [|? ? _ Hb]; subst.
    inversion Htexts as [|? ? Ht Hts]; subst.
    assert (Hnew : Forall accepted (buffer_lines (b ++ [t]))).
    { unfold buffer_lines. rewrite map_app. apply Forall_app. split; [exact Hb|].
      constructor; [exact Ht | constructor]. }
    rewrite (play_accepted _ Hnew w). cbn [fst snd].
    set (box1 := {| ScrollingTextBox._line_buffer := b ++ [t];
                    ScrollingTextBox.limit := ScrollingTextBox.limit box |}).
    assert (Hlen1 : List.length (ScrollingTextBox._line_buffer box1) = n).
    { subst box1 n. simpl. rewrite length_app. simpl. lia. }
    destruct (IH box1 (emit (buffer_lines (b ++ [t])) w))
      as (box' & evs & Hw' & Hcount).
    + rewrite Hlen1. exact Hn.
    + rewrite Hlen1. exact Hlim.
    + exact Hnew.
    + exact Hts.
    + rewrite Hw', emit_emit. rewrite Hlen1 in Hcount.
      exists box', (buffer_lines (b ++ [t]) ++ evs)%list.
      split; [reflexivity|].
      rewrite length_app, Hcount. unfold buffer_lines. rewrite length_map.
      change (List.length (b ++ [t])) with
        (List.length (ScrollingTextBox._line_buffer box1)).
      rewrite Hlen1. simpl. lia.
Qed.

(** C3, amended.  For a box built with a limit of at least 1: the buffer
    has [limit] lines after construction and after every sequence of
    appends, each append evicts the line at index 0 (the buffer is then at
    the limit) and adds the new line at the end before the buffer is
    written, none fails for want of a line to evict, and once more than
    [limit] lines were appended the buffer holds the last [limit] of them
    in order. *)
Theorem ScrollingTextBox_scrolls (limit : Z) (texts : list string) :
  1 <= limit -> scrolls limit texts.
Proof.
  intros Hlim. unfold scrolls.
  set (box := ScrollingTextBox.__init__ limit).
  assert (Hlen : List.length (ScrollingTextBox._line_buffer box) = Z.to_nat limit).
  { subst box. simpl. apply repeat_length. }
  split; [rewrite Hlen; lia|].
  intros w.
  destruct (appends_full texts box w) as (rs & w' & Hw' & _ & Hrs).
  - rewrite Hlen. lia.
  - rewrite Hlen. subst box. simpl. lia.
  - rewrite Hlen in Hw'.
    assert (Hfinal : List.length
                       (last_n (Z.to_nat limit)
                               (ScrollingTextBox._line_buffer box ++ texts))
                     = Z.to_nat limit).
    { apply last_n_length. rewrite length_app, Hlen. lia. }
    exists rs. eexists. exists w'. split; [exact Hw'|]. split; [exact Hrs|].
    cbn [ScrollingTextBox._line_buffer ScrollingTextBox.limit].
    split; [reflexivity|]. split; [rewrite Hfinal; lia|]. split.
    + intros Hk. apply last_n_app_short; [rewrite Hlen|]; lia.
    + intros text. apply ScrollingTextBox_print_step. left.
      cbn [ScrollingTextBox._line_buffer]. intros Hnil.
      rewrite Hnil in Hfinal. simpl in Hfinal. lia.
Qed.

(** C10.  A box built with limit 0 has an empty buffer, and every append
    on it raises [IndexError] from [pop(0)], before anything is written or
    changed: in every sequence of appends every call does. *)
Theorem ScrollingTextBox_limit0_raises :
  ScrollingTextBox._line_buffer (ScrollingTextBox.__init__ 0) = []
  /\ (ScrollingTextBox.limit (ScrollingTextBox.__init__ 0)
      <=? Z.of_nat (List.length
                      (ScrollingTextBox._line_buffer (ScrollingTextBox.__init__ 0))))
     = true
  /\ (forall text w,
         ScrollingTextBox.print (ScrollingTextBox.__init__ 0) text w
         = (Raise IndexError, ScrollingTextBox.__init__ 0, w))
  /\ (forall texts w,
         appends (ScrollingTextBox.__init__ 0) texts w
         = (map (fun _ => Raise IndexError) texts, ScrollingTextBox.__init__ 0, w)).
Proof.
  split; [reflexivity|]. split; [reflexivity|].
  assert (H : forall text w,
             ScrollingTextBox.print (ScrollingTextBox.__init__ 0) text w
             = (Raise IndexError, ScrollingTextBox.__init__ 0, w)).
  { intros text w. apply ScrollingTextBox_print_empty; [reflexivity | simpl; lia]. }
  split; [exact H|].
  induction texts as [|t ts IH]; intros w; [reflexivity|].
  cbn [appends map]. rewrite H, IH. reflexivity.
Qed.

(** X3.  The first append on a new box, for every limit.  With a limit of
    at least 1 the buffer becomes [limit - 1] empty lines and the appended
    text, and the call ends as the writing of these lines ends: normally,
    all of them written, when the console accepts them.  With any other
    limit the buffer is empty, [pop(0)] raises [IndexError], and neither
    the box nor the terminal changes. *)
Theorem ScrollingTextBox_first_print (limit : Z) (text : string) :
  let box := ScrollingTextBox.__init__ limit in
  let buffer := (List.repeat "" (Z.to_nat limit - 1) ++ [text])%list in
  let box' := {| ScrollingTextBox._line_buffer := buffer;
                 ScrollingTextBox.limit := limit |} in
  (1 <= limit
   /\ Z.of_nat (List.length buffer) = limit
   /\ (forall w,
          ScrollingTextBox.print box text w
          = (fst (play (buffer_lines buffer) w), box',
             snd (play (buffer_lines buffer) w)))
   /\ (Forall accepted (buffer_lines buffer) ->
       forall w,
         ScrollingTextBox.print box text w
         = (Ok tt, box', emit (buffer_lines buffer) w)))
  \/ (limit <= 0
      /\ forall w, ScrollingTextBox.print box text w = (Raise IndexError, box, w)).
Proof.
  intros box buffer box'. destruct (Z.le_gt_cases 1 limit) as [Hge|Hlt].
  - left. split; [exact Hge|].
    assert (Hrun : forall w,
               ScrollingTextBox.print box text w
               = (fst (play (buffer_lines buffer) w), box',
                  snd (play (buffer_lines buffer) w))).
    { assert (Hstep : evicts_then_appends box text).
      { apply ScrollingTextBox_print_step. left. subst box. simpl.
        destruct (Z.to_nat limit) eqn:E; [lia | discriminate]. }
      unfold evicts_then_appends in Hstep.
      replace (ScrollingTextBox.limit box
               <=? Z.of_nat (List.length (ScrollingTextBox._line_buffer box)))
        with true in Hstep
        by (symmetry; apply Z.leb_le; subst box; simpl; rewrite repeat_length; lia).
      replace (tl (ScrollingTextBox._line_buffer box))
        with (List.repeat "" (Z.to_nat limit - 1)) in Hstep
        by (subst box; simpl; destruct (Z.to_nat limit) eqn:E;
            [lia | simpl; now rewrite Nat.sub_0_r]).
      exact Hstep. }
    split; [|split; [exact Hrun|]].
    + subst buffer. rewrite length_app, repeat_length. simpl. lia.
    + intros Hacc w. rewrite Hrun, (play_accepted _ Hacc w). reflexivity.
  - right. split; [lia|]. intros w.
    apply ScrollingTextBox_print_empty; [|subst box; simpl; lia].
    subst box. simpl. now replace (Z.to_nat limit) with 0%nat by lia.
Qed.

(** X4.  A box built with a limit of at least 1 starts full of empty
    lines: after [k] appends, whatever the console accepted, its buffer
    holds the last [limit] lines of the empty lines followed by the
    appended ones, so as long as [k <= limit] the appended lines sit at the
    bottom under [limit - k] empty lines.  When the console accepts the
    empty line and the appended ones, every call ends normally and writes
    [limit] lines. *)
Theorem ScrollingTextBox_padding (limit : Z) (texts : list string) (w : World) :
  1 <= limit ->
  let n := Z.to_nat limit in
  let k := List.length texts in
  exists results buffer w',
    appends (ScrollingTextBox.__init__ limit) texts w
    = (results,
       {| ScrollingTextBox._line_buffer := buffer;
          ScrollingTextBox.limit := limit |}, w')
    /\ List.length results = k
    /\ buffer = last_n n (List.repeat "" n ++ texts)
    /\ ((k <= n)%nat -> buffer = (List.repeat "" (n - k) ++ texts)%list)
    /\ (accepted (ConsolePrint "" None false) ->
        Forall accepted (buffer_lines texts) ->
        results = List.repeat (Ok tt) k
        /\ exists evs, w' = emit evs w /\ List.length evs = (k * n)%nat).
Proof.
  intros Hlim n k.
  set (box := ScrollingTextBox.__init__ limit).
  assert (Hlen : List.length (ScrollingTextBox._line_buffer box) = n).
  { subst box. simpl. apply repeat_length. }
  destruct (appends_full texts box w) as (rs & w' & Hw' & Hrs & _).
  - rewrite Hlen. lia.
  - rewrite Hlen. subst box n. simpl. lia.
  - rewrite Hlen in Hw'.
    exists rs, (last_n n (List.repeat "" n ++ texts)), w'.
    split; [exact Hw'|]. split; [exact Hrs|]. split; [reflexivity|].
    split; [intros Hk; now apply last_n_padding|].
    intros Hempty Htexts.
    destruct (appends_accepted texts box w) as (box' & evs & Hacc & Hcount).
    + rewrite Hlen. lia.
    + rewrite Hlen. subst box n. simpl. lia.
    + subst box. simpl. clear -Hempty.
      induction (Z.to_nat limit); simpl; constructor; auto.
    + exact Htexts.
    + rewrite Hlen in Hcount. rewrite Hw' in Hacc.
      injection Hacc as -> _ ->. split; [reflexivity|]. now exists evs.
Qed.

End ScrollingTextBoxFacts.

Section ScrollingTextBoxExamples.

Local Existing Instance example_console.

Example ScrollingTextBox_abcd :
  snd (fst (appends (ScrollingTextBox.__init__ 3) ["a"; "b"; "c"; "d"] World0))
  = {| ScrollingTextBox._line_buffer := ["b"; "c"; "d"];
       ScrollingTextBox.limit := 3 |}.
Proof. reflexivity. Qed.

(** A line the console refuses: the call raises, the buffer has changed. *)
Example ScrollingTextBox_refused_line :
  ScrollingTextBox.print (ScrollingTextBox.__init__ 2) "[/a]" World0
  = (Raise MarkupError,
     {| ScrollingTextBox._line_buffer := [""; "[/a]"];
        ScrollingTextBox.limit := 2 |},
     emit [ConsolePrint "" None false] World0).
Proof. reflexivity. Qed.

Lemma ScrollingTextBox_scrolls_witness : scrolls 3 ["a"; "[/b]"; "c"; "d"].
Proof. apply ScrollingTextBox_scrolls. lia. Defined.

(** C3 as stated, for every box, fails: a box built with limit 0 raises
    [IndexError] on its append, and a box built with a negative limit has
    an empty buffer, whose length is not the limit. *)
Lemma ScrollingTextBox_scrolls_counterexample :
  ~ scrolls 0 ["a"] /\ ~ scrolls (-1) [].
Proof.
  split; intros [Hlen H].
  - destruct (H World0) as (rs & box' & w' & Hrun & Hrs & _).
    injection Hrun as <- _ _. inversion Hrs as [|? ? Hne _]. now apply Hne.
  - discriminate Hlen.
Qed.

Lemma ScrollingTextBox_padding_witness :
  exists results w',
    appends (ScrollingTextBox.__init__ 3) ["a"] World0
    = (results,
       {| ScrollingTextBox._line_buffer := [""; ""; "a"];
          ScrollingTextBox.limit := 3 |}, w')
    /\ List.length results = 1%nat.
Proof.
  destruct (ScrollingTextBox_padding 3 ["a"] World0)
    as (rs & buffer & w' & Hw & Hn & _ & Hpad & _); [lia|].
  exists rs, w'. rewrite (Hpad ltac:(simpl; lia)) in Hw. split; [exact Hw | exact Hn].
Defined.

End ScrollingTextBoxExamples.

(** ** DataFrame *)

Lemma nth_error_combine {A B} (l : list A) (l' : list B) (i : nat) (a : A) (b : B) :
  nth_error l i = Some a -> nth_error l' i = Some b ->
  nth_error (combine l l') i = Some (a, b).
Proof.
  revert l' i; induction l as [|x l IH]; intros [|y l'] [|i]; simpl;
    try discriminate.
  - now intros [= ->] [= ->].
  - apply IH.
Qed.

Section DataFrameFacts.

Context {R : Rich}.

(** [DataFrame.print] is the writing of its header line and of its data
    lines, through the console. *)
Lemma DataFrame_print_play (self : DataFrame.t) (w : World) :
  DataFrame.print self w
  = play (header_lines (DataFrame.header self)
          ++ data_lines (DataFrame.data self) (DataFrame.colors self)) w.
Proof.
  rewrite play_app. unfold DataFrame.print.
  apply bind_ext; [apply print_header_play | intros _ w'].
  unfold data_lines, play.
  induction (combine (DataFrame.data self) (DataFrame.colors self))
    as [|[text color] l IH] in w' |- *; [reflexivity|].
  cbn [map for_]. apply bind_ext; [reflexivity | intros _ w''; apply IH].
Qed.

Lemma data_lines_zip (data colors : list string) :
  List.length (data_lines data colors)
  = Nat.min (List.length data) (List.length colors)
  /\ forall i text color,
      nth_error data i = Some text ->
      nth_error colors i = Some color ->
      nth_error (data_lines data colors) i = Some (data_line text color).
Proof.
  unfold data_lines. split.
  - now rewrite length_map, length_combine.
  - intros i text color Ht Hc.
    now rewrite nth_error_map, (nth_error_combine _ _ _ _ _ Ht Hc).
Qed.

(** C5, amended.  When the console accepts the header line and the data
    lines, [DataFrame.print] ends normally and writes, after the header,
    exactly [min(len(data), len(colors))] lines, the line at position [i]
    made of the [i]-th text and the [i]-th colour, so what the longer
    sequence has beyond the shorter one is not written.  When the console
    refuses one of these lines, the lines before it have been written and
    the refusal is raised. *)
Theorem DataFrame_print_zip (self : DataFrame.t) :
  let lines :=
    (header_lines (DataFrame.header self)
     ++ data_lines (DataFrame.data self) (DataFrame.colors self))%list in
  (Forall accepted lines -> zips self)
  /\ (forall before line after r,
         lines = (before ++ line :: after)%list ->
         Forall accepted before ->
         refusal_of line = Some r ->
         writes (DataFrame.print self) before (Raise (exn_of r))).
Proof.
  intros lines. split.
  - intros Hacc.
    exists (data_lines (DataFrame.data self) (DataFrame.colors self)).
    split; [|apply data_lines_zip].
    apply (writes_ext _ _ _ _ (DataFrame_print_play self)).
    now apply play_accepted.
  - intros before line after r Hsplit Hbefore Hline.
    apply (writes_ext _ _ _ _ (DataFrame_print_play self)).
    fold lines. rewrite Hsplit. now apply play_refused.
Qed.

End DataFrameFacts.

Section DataFrameExamples.

Local Existing Instance example_console.

Example DataFrame_xyz :
  output (DataFrame.print
            {| DataFrame.data := ["x"; "y"; "z"];
               DataFrame.header := None;
               DataFrame.colors := ["red"; "green"] |})
  = [ConsolePrint "[red]+[/red] x" None false;
     ConsolePrint "[green]+[/green] y" None false].
Proof. reflexivity. Qed.

Lemma DataFrame_print_zip_witness :
  zips {| DataFrame.data := ["x"; "y"; "z"];
          DataFrame.header := Some a_header;
          DataFrame.colors := ["red"; "green"] |}
  /\ writes (DataFrame.print a_stray_frame)
       [ConsolePrint "[red]+[/red] x" None false] (Raise MarkupError).
Proof.
  split.
  - apply (DataFrame_print_zip
             {| DataFrame.data := ["x"; "y"; "z"];
                DataFrame.header := Some a_header;
                DataFrame.colors := ["red"; "green"] |}).
    repeat constructor.
  - apply (proj2 (DataFrame_print_zip a_stray_frame)
             [ConsolePrint "[red]+[/red] x" None false]
             (ConsolePrint "[green]+[/green] [/y]" None false)
             [ConsolePrint "[blue]+[/blue] z" None false] BadMarkup);
      [reflexivity | repeat constructor | reflexivity].
Defined.

(** C5 as stated, for every data frame, fails: with the texts [x], [[/y]],
    [z] and three colours the second line is refused by the console, one
    line is written instead of three, and [MarkupError] is raised. *)
Lemma DataFrame_print_zip_counterexample :
  ~ zips a_stray_frame
  /\ DataFrame.print a_stray_frame World0
     = (Raise MarkupError, emit [ConsolePrint "[red]+[/red] x" None false] World0).
Proof.
  split; [|reflexivity].
  intros (lines & Hw & _). specialize (Hw World0). discriminate Hw.
Qed.

End DataFrameExamples.

(** ** Selector *)

Lemma Dict_get_in (d : Dict.t) (k v : string) :
  Dict.wf d -> In (k, v) d -> Dict.get d k = Some v.
Proof.
  unfold Dict.wf, Dict.keys.
  induction d as [|[k' v'] d IH]; simpl; intros Hnd Hin; [contradiction|].
  inversion Hnd as [|? ? Hnotin Hnd']; subst.
  destruct Hin as [[= -> ->]|Hin].
  - now rewrite String.eqb_refl.
  - destruct (String.eqb_spec k' k) as [->|_]; [|now apply IH].
    elim Hnotin. change k with (fst (k, v)). now apply in_map.
Qed.

Lemma numbered_lines_app (a b : list (string * string)) (i : Z) :
  numbered_lines i (a ++ b)
  = (numbered_lines i a ++ numbered_lines (i + Z.of_nat (List.length a)) b)%list.
Proof.
  revert i; induction a as [|[k v] a IH]; intros i.
  - simpl. now rewrite Z.add_0_r.
  - cbn [app numbered_lines List.length]. rewrite IH, <- app_assoc.
    do 3 f_equal. lia.
Qed.

Lemma length_numbered_lines (pairs : list (string * string)) (i : Z) :
  List.length (numbered_lines i pairs) = (2 * List.length pairs)%nat.
Proof.
  revert i; induction pairs as [|[k v] pairs IH]; intros i; simpl;
    [reflexivity | rewrite IH; lia].
Qed.

Lemma numbered_lines_nth (pairs : list (string * string)) :
  forall (j : nat) (i : Z) (k v : string),
    nth_error pairs j = Some (k, v) ->
    firstn 2 (skipn (2 * j) (numbered_lines i pairs))
    = choice_lines (i + Z.of_nat j) k v.
Proof.
  induction pairs as [|[k' v'] pairs IH]; intros [|j] i k v H;
    simpl in H; try discriminate.
  - injection H as -> ->. simpl. now rewrite Z.add_0_r.
  - replace (2 * S j)%nat with (S (S (2 * j))) by lia.
    cbn [numbered_lines choice_lines app skipn].
    rewrite (IH j (i + 1) k v H). f_equal; lia.
Qed.

Section SelectorFacts.

Context {R : Rich}.

Lemma print_choice_play (choice : Dict.t) (k v : string) (i : Z) (w : World) :
  Dict.get choice k = Some v ->
  print_choice choice k i w = (play (choice_lines i k v) ;; ret (i + 1)) w.
Proof.
  intros Hget. unfold print_choice, choice_lines, play, Dict.getitem.
  rewrite Hget. cbn [for_]. unfold bind, ret.
  destruct (console_print _ None false w) as [[[]|e] w1]; [|reflexivity].
  destruct (console_print _ None false w1) as [[[]|e] w2]; reflexivity.
Qed.

(** The inner loop, over the pairs of one mapping that are still to come. *)
Lemma inner_loop_play (choice : Dict.t) (pairs : list (string * string)) :
  forall i w,
    (forall k v, In (k, v) pairs -> Dict.get choice k = Some v) ->
    for_acc (Dict.keys pairs) i (print_choice choice) w
    = (play (numbered_lines i pairs) ;; ret (i + Z.of_nat (List.length pairs))) w.
Proof.
  induction pairs as [|[k v] pairs IH]; intros i w Hget.
  - simpl. unfold bind, ret. now rewrite Z.add_0_r.
  - cbn [Dict.keys map fst for_acc numbered_lines List.length].
    rewrite (bind_ext _ _ _ _
               (fun w => print_choice_play choice k v i w (Hget k v (or_introl eq_refl)))
               (fun j w => IH j w (fun k' v' H => Hget k' v' (or_intror H)))).
    rewrite bind_assoc.
    rewrite (bind_ext _ _ _ (fun _ => play (numbered_lines (i + 1) pairs) ;;
                                     ret (i + Z.of_nat (S (List.length pairs))))
               (fun w => eq_refl)); cycle 1.
    { intros [] w'. unfold bind at 1, ret at 1.
      replace (i + 1 + Z.of_nat (List.length pairs))
        with (i + Z.of_nat (S (List.length pairs))) by lia.
      reflexivity. }
    rewrite <- bind_assoc.
    apply bind_ext; [|reflexivity].
    intros w'. symmetry. apply play_app.
Qed.

(** The outer loop: the counter goes on from one mapping to the next. *)
Lemma outer_loop_play (choices : list Dict.t) :
  forall i w,
    Forall Dict.wf choices ->
    for_acc choices i
      (fun choice _i => for_acc (Dict.keys choice) _i (print_choice choice)) w
    = (play (numbered_lines i (flattened choices)) ;;
       ret (i + Z.of_nat (List.length (flattened choices)))) w.
Proof.
  unfold flattened.
  induction choices as [|c cs IH]; intros i w Hwf.
  - simpl. unfold bind, ret. now rewrite Z.add_0_r.
  - inversion Hwf as [|? ? Hc Hcs]; subst.
    cbn [for_acc List.concat]. rewrite numbered_lines_app, length_app.
    rewrite (bind_ext _ _ _ _
               (fun w => inner_loop_play c c i w (fun k v => Dict_get_in c k v Hc))
               (fun j w => IH j w Hcs)).
    rewrite bind_assoc.
    rewrite (bind_ext _ _ _
               (fun _ => play (numbered_lines (i + Z.of_nat (List.length c))
                                              (List.concat cs)) ;;
                         ret (i + Z.of_nat (List.length c + List.length (List.concat cs))))
               (fun w => eq_refl)); cycle 1.
    { intros [] w'. unfold bind at 1, ret at 1.
      replace (i + Z.of_nat (List.length c) + Z.of_nat (List.length (List.concat cs)))
        with (i + Z.of_nat (List.length c + List.length (List.concat cs))) by lia.
      reflexivity. }
    rewrite <- bind_assoc.
    apply bind_ext; [|reflexivity].
    intros w'. symmetry. apply play_app.
Qed.

(** [Selector.print] is the writing of its header line and of its numbered
    lines, through the console. *)
Lemma Selector_print_play (self : Selector.t) (w : World) :
  Forall Dict.wf (Selector.choices self) ->
  Selector.print self w
  = play (header_lines (Selector.header self)
          ++ numbered_lines 1 (flattened (Selector.choices self))) w.
Proof.
  intros Hwf. rewrite play_app. unfold Selector.print.
  apply bind_ext; [apply print_header_play | intros _ w'].
  rewrite (bind_ext _ _ _ _ (fun w => outer_loop_play _ 1 w Hwf) (fun _ w => eq_refl)).
  rewrite bind_assoc. etransitivity; [|apply bind_ret_tt].
  apply bind_ext; reflexivity.
Qed.

(** C6.  The lines [Selector.print] is to write after the header are two
    for every pair of the flattened sequence of (label, description)
    pairs, mappings in order and keys within each mapping in order; the
    pair at position [j] (from 0) has the number [1 + j], whatever the
    number of keys of the mappings: the counter starts at 1, grows by one
    per pair and is not reset between mappings.  They are written in this
    order: all of them, and [print] ends normally, when the console accepts
    them; up to the first one the console refuses, whose refusal is raised,
    otherwise. *)
Theorem Selector_print_numbering (self : Selector.t) :
  Forall Dict.wf (Selector.choices self) ->
  let pairs := flattened (Selector.choices self) in
  exists body,
    List.length body = (2 * List.length pairs)%nat
    /\ (forall j label description,
           nth_error pairs j = Some (label, description) ->
           firstn 2 (skipn (2 * j) body)
           = choice_lines (1 + Z.of_nat j) label description)
    /\ (Forall accepted (header_lines (Selector.header self) ++ body) ->
        writes (Selector.print self)
          (header_lines (Selector.header self) ++ body) (Ok tt))
    /\ (forall before line after r,
           (header_lines (Selector.header self) ++ body)%list
           = (before ++ line :: after)%list ->
           Forall accepted before ->
           refusal_of line = Some r ->
           writes (Selector.print self) before (Raise (exn_of r))).
Proof.
  intros Hwf pairs. exists (numbered_lines 1 pairs).
  split; [apply length_numbered_lines|].
  split; [intros j label description; apply numbered_lines_nth|].
  split.
  - intros Hacc.
    apply (writes_ext _ _ _ _ (fun w => Selector_print_play self w Hwf)).
    now apply play_accepted.
  - intros before line after r Hsplit Hbefore Hline.
    apply (writes_ext _ _ _ _ (fun w => Selector_print_play self w Hwf)).
    fold pairs. rewrite Hsplit. now apply play_refused.
Qed.

End SelectorFacts.

Section SelectorExamples.

Local Existing Instance example_console.

Example Selector_two_mappings :
  output (Selector.print
            {| Selector.header := None;
               Selector.choices := [[("a", "first"); ("b", "second")]; [("c", "third")]];
               Selector.style := "blue" |})
  = [ConsolePrint "[b]1. a[/]" None false; ConsolePrint "   first" None false;
     ConsolePrint "[b]2. b[/]" None false; ConsolePrint "   second" None false;
     ConsolePrint "[b]3. c[/]" None false; ConsolePrint "   third" None false].
Proof. reflexivity. Qed.

(** A label the console refuses: the pairs before it are written with
    their numbers, then [MarkupError]. *)
Example Selector_refused_label :
  Selector.print
    {| Selector.header := None;
       Selector.choices := [[("a", "first")]; [("[/x]", "second")]];
       Selector.style := "blue" |} World0
  = (Raise MarkupError,
     emit [ConsolePrint "[b]1. a[/]" None false; ConsolePrint "   first" None false]
       World0).
Proof. reflexivity. Qed.

Lemma Selector_print_numbering_witness :
  exists body,
    writes (Selector.print
              {| Selector.header := None;
                 Selector.choices := [[("a", "first"); ("b", "second")]; [("c", "third")]];
                 Selector.style := "blue" |})
      body (Ok tt)
    /\ firstn 2 (skipn 4 body)
       = [ConsolePrint "[b]3. c[/]" None false; ConsolePrint "   third" None false].
Proof.
  destruct (Selector_print_numbering
              {| Selector.header := None;
                 Selector.choices := [[("a", "first"); ("b", "second")]; [("c", "third")]];
                 Selector.style := "blue" |})
    as (body & Hlen & Hnth & Hw & _).
  - repeat constructor; simpl; intuition discriminate.
  - exists body. split; [|apply (Hnth 2%nat "c" "third"); reflexivity].
    apply Hw. cbn [header_lines Selector.header app].
    destruct body as [|e1 [|e2 [|e3 [|e4 [|e5 [|e6 [|e7 body]]]]]]];
      try discriminate Hlen.
    pose proof (Hnth 0%nat "a" "first" eq_refl) as H0.
    pose proof (Hnth 1%nat "b" "second" eq_refl) as H1.
    pose proof (Hnth 2%nat "c" "third" eq_refl) as H2.
    cbn in H0, H1, H2. injection H0 as -> ->. injection H1 as -> ->.
    injection H2 as -> ->. repeat constructor.
Defined.

End SelectorExamples.

(** ** Widgets only write *)

Lemma writer_ret {A} (a : A) : writer (ret a).
Proof. exists [], (Ok a). apply writes_ret. Qed.

Lemma writer_raise {A} (e : exn) : writer (@raise A e).
Proof. exists [], (Raise e). apply writes_raise. Qed.

Lemma writer_bind {A B} (m : IO A) (k : A -> IO B) :
  writer m -> (forall a, writer (k a)) -> writer (bind m k).
Proof.
  intros (evs & [a|e] & Hm) Hk.
  - destruct (Hk a) as (evs' & r & Hka).
    exists (evs ++ evs')%list, r. now apply writes_bind with a.
  - exists evs, (Raise e). now apply writes_bind_raise.
Qed.

Lemma writer_for {A} (xs : list A) (body : A -> IO unit) :
  (forall x, writer (body x)) -> writer (for_ xs body).
Proof.
  intros H. induction xs as [|x xs IH]; simpl.
  - apply writer_ret.
  - apply writer_bind; [apply H | intros _; exact IH].
Qed.

Lemma writer_for_acc {A S} (xs : list A) (body : A -> S -> IO S) :
  (forall x s, writer (body x s)) -> forall s, writer (for_acc xs s body).
Proof.
  intros H. induction xs as [|x xs IH]; intros s; simpl.
  - apply writer_ret.
  - apply writer_bind; [apply H | exact IH].
Qed.

Lemma writer_first {A} (l : list A) : writer (first l).
Proof. destruct l; [apply writer_raise | apply writer_ret]. Qed.

Lemma writer_getitem (d : Dict.t) (k : string) : writer (Dict.getitem d k).
Proof.
  unfold Dict.getitem. destruct (Dict.get d k); [apply writer_ret | apply writer_raise].
Qed.

Lemma writer_observed {A} (m : IO A) : writer m -> writes m (output m) (outcome m).
Proof. intros (evs & r & H). exact (writes_observed _ _ _ H). Qed.

(** The first element of a list that fails a test. *)
Lemma first_failing {A} (f : A -> bool) (l : list A) :
  forallb f l = false ->
  exists before x after,
    l = (before ++ x :: after)%list /\ forallb f before = true /\ f x = false.
Proof.
  induction l as [|y l IH]; [discriminate|]. simpl.
  destruct (f y) eqn:Hy.
  - intros H. destruct (IH H) as (before & x & after & -> & Hb & Hx).
    exists (y :: before), x, after. simpl. rewrite Hy. auto.
  - intros _. exists [], y, l. auto.
Qed.

Section WidgetFacts.

Context {R : Rich}.

Lemma writer_console_print text style highlight :
  writer (console_print text style highlight).
Proof.
  destruct (refuses text style) as [r|] eqn:E.
  - eexists _, _. now apply writes_console_print_refused with (r := r).
  - eexists _, _. now apply writes_console_print.
Qed.

Lemma writer_print_header (header : option Header.t) : writer (print_header header).
Proof. destruct header; [apply writer_console_print | apply writer_ret]. Qed.

Lemma Widget_print_writer (widget : Widget.t) : writer (Widget.print widget).
Proof.
  destruct widget as [|w|w|w|w|w|w]; simpl.
  - apply writer_raise.
  - apply writer_console_print.
  - apply writer_raise.
  - apply writer_bind; [apply writer_print_header | intros _].
    apply writer_for. intros [text color]. apply writer_console_print.
  - apply writer_bind; [apply writer_print_header | intros _].
    apply writer_bind; [|intros _; apply writer_ret].
    apply writer_for_acc. intros choice i.
    apply writer_for_acc. intros k j.
    apply writer_bind; [apply writer_console_print | intros _].
    apply writer_bind; [apply writer_getitem | intros d].
    apply writer_bind; [apply writer_console_print | intros _; apply writer_ret].
  - apply writer_bind; [apply writer_print_header | intros _].
    apply writer_for. intros entry.
    apply writer_bind; [apply writer_first | intros title].
    apply writer_bind; [apply writer_console_print | intros _].
    apply writer_bind; [apply writer_first | intros body].
    apply writer_console_print.
  - apply writer_console_print.
Qed.

Lemma Widget_print_observed (widget : Widget.t) :
  writes (Widget.print widget)
    (output (Widget.print widget)) (outcome (Widget.print widget)).
Proof. apply writer_observed, Widget_print_writer. Qed.

Lemma Selector_print_observed (self : Selector.t) :
  writes (Selector.print self)
    (output (Selector.print self)) (outcome (Selector.print self)).
Proof. exact (Widget_print_observed (Widget.OfSelector self)). Qed.

(** One step of the layout loop, for a widget that renders. *)
Lemma writes_layout_step (separator : string) (widget : Widget.t) :
  renders widget ->
  writes (Widget.print widget ;; builtin_print separator)
    (output (Widget.print widget) ++ [StdoutWrite separator]) (Ok tt).
Proof.
  intros Hr. eapply writes_bind; [|apply writes_write].
  rewrite <- Hr. apply Widget_print_observed.
Qed.

(** A layout renders entirely, or has a first widget that raises. *)
Lemma first_raising (widgets : list Widget.t) :
  Forall renders widgets
  \/ exists before widget after e,
      widgets = (before ++ widget :: after)%list
      /\ Forall renders before
      /\ outcome (Widget.print widget) = Raise e.
Proof.
  induction widgets as [|x xs IH]; [left; constructor|].
  destruct (outcome (Widget.print x)) as [[]|e] eqn:Hx.
  - destruct IH as [Hall|(before & y & after & e & -> & Hb & Hy)].
    + left. now constructor.
    + right. exists (x :: before), y, after, e. repeat split; auto.
  - right. exists [], x, xs, e. repeat split; auto.
Qed.

(** A widget that renders is one a layout can call. *)
Lemma renders_can_render (widget : Widget.t) :
  renders widget -> can_render widget = true.
Proof.
  unfold renders.
  destruct widget as [|h|b|d|s|f|l]; cbn [can_render]; try reflexivity;
    try discriminate.
  intros Hout. destruct (forallb nonempty (InfoFrame.data f)) eqn:Hall; [reflexivity|].
  exfalso.
  destruct (first_failing _ _ Hall) as (before & x & after & Hd & _ & Hx).
  destruct x as [|p x]; [|discriminate].
  revert Hout. unfold outcome. cbn [Widget.print]. unfold InfoFrame.print.
  rewrite Hd. unfold bind at 1.
  destruct (print_header (InfoFrame.header f) World0) as [[[]|e] w1];
    [|discriminate].
  rewrite for_app. unfold bind at 1.
  destruct (for_ before _ w1) as [[[]|e] w2]; [|discriminate].
  discriminate.
Qed.

(** C4.  [print_layout] on a layout of widgets: every widget writes what
    its own [print] writes, whatever was written before.  When every
    widget's [print] ends normally, the terminal receives, in layout order,
    each widget's output once, followed each time by the separator, the
    last widget included.  When the widget after [before] raises [e], so
    does [print_layout]: the terminal has received the widgets of [before]
    with their separators and what the failing widget wrote before it
    raised, and nothing of the widgets after it. *)
Theorem Screen_print_layout_order (self : Screen.t) (widgets : list Widget.t) :
  Screen.layout self = Some widgets ->
  let separator := Screen.widget_separator self in
  (forall widget,
      writes (Widget.print widget)
        (output (Widget.print widget)) (outcome (Widget.print widget)))
  /\ (Forall renders widgets ->
      writes (Screen.print_layout self) (rendered separator widgets) (Ok tt))
  /\ (forall before widget after e,
        widgets = (before ++ widget :: after)%list ->
        Forall renders before ->
        outcome (Widget.print widget) = Raise e ->
        writes (Screen.print_layout self)
          (rendered separator before ++ output (Widget.print widget)) (Raise e)).
Proof.
  intros Hlayout separator.
  assert (Hobs : forall widget,
             writes (Widget.print widget)
               (output (Widget.print widget)) (outcome (Widget.print widget))).
  { intros widget. apply writer_observed, Widget_print_writer. }
  assert (Hok : forall widget,
             renders widget ->
             writes (Widget.print widget ;; builtin_print separator)
               (output (Widget.print widget) ++ [StdoutWrite separator]) (Ok tt)).
  { intros widget Hr. eapply writes_bind; [|apply writes_write].
    rewrite <- Hr. apply Hobs. }
  split; [exact Hobs|]. unfold Screen.print_layout. rewrite Hlayout. split.
  - intros Hall. apply writes_for. intros widget Hin. apply Hok.
    rewrite Forall_forall in Hall. now apply Hall.
  - intros before widget after e -> Hall Hraise.
    apply (writes_for_raise before widget after _
             (fun widget =>
                (output (Widget.print widget) ++ [StdoutWrite separator])%list)).
    + intros y Hin. apply Hok. rewrite Forall_forall in Hall. now apply Hall.
    + apply writes_bind_raise. rewrite <- Hraise. apply Hobs.
Qed.

(** Without a layout ([layout=None], the default) the loop cannot start. *)
Lemma Screen_print_layout_None (self : Screen.t) :
  Screen.layout self = None ->
  writes (Screen.print_layout self) [] (Raise TypeError).
Proof.
  intros H. unfold Screen.print_layout. rewrite H. apply writes_raise.
Qed.

(** X12.  Printing a layout made of two parts is printing the first part,
    then, when that ended normally, the second. *)
Theorem Screen_print_layout_app
        (self : Screen.t) (first_part second_part : list Widget.t) (w : World) :
  Screen.print_layout (with_layout self (first_part ++ second_part)) w
  = (Screen.print_layout (with_layout self first_part) ;;
     Screen.print_layout (with_layout self second_part)) w.
Proof. unfold Screen.print_layout. cbn [with_layout Screen.layout]. apply for_app. Qed.

(** X13.  [print_layout] ends normally exactly when the [print] of every
    widget of the layout does.  So it never does on a layout that holds a
    bare [Widget], a [ScrollingTextBox] (its [print] wants a text) or an
    [InfoFrame] with an empty entry, whatever the console accepts. *)
Theorem Screen_print_layout_completes_iff (self : Screen.t) (widgets : list Widget.t) :
  Screen.layout self = Some widgets ->
  (outcome (Screen.print_layout self) = Ok tt <-> Forall renders widgets)
  /\ (outcome (Screen.print_layout self) = Ok tt ->
      forallb can_render widgets = true).
Proof.
  intros Hlayout.
  assert (Hiff : outcome (Screen.print_layout self) = Ok tt <-> Forall renders widgets).
  { unfold Screen.print_layout. rewrite Hlayout. split.
    - intros Hout.
      destruct (first_raising widgets)
        as [Hall|(before & x & after & e & -> & Hb & Hx)]; [exact Hall|].
      exfalso.
      assert (H : writes
                    (for_ (before ++ x :: after)
                       (fun widget =>
                          Widget.print widget ;;
                          builtin_print (Screen.widget_separator self)))
                    (flat_map
                       (fun widget =>
                          (output (Widget.print widget)
                           ++ [StdoutWrite (Screen.widget_separator self)])%list)
                       before ++ output (Widget.print x))
                    (Raise e)).
      { apply writes_for_raise.
        - intros y Hin. apply writes_layout_step.
          rewrite Forall_forall in Hb. now apply Hb.
        - apply writes_bind_raise. rewrite <- Hx. apply Widget_print_observed. }
      rewrite (writes_outcome _ _ _ H) in Hout. discriminate.
    - intros Hall. eapply writes_outcome. apply writes_for.
      intros widget Hin. apply writes_layout_step.
      rewrite Forall_forall in Hall. now apply Hall. }
  split; [exact Hiff|].
  intros Hout. apply Hiff in Hout. apply forallb_forall. intros widget Hin.
  apply renders_can_render. rewrite Forall_forall in Hout. now apply Hout.
Qed.

(** X14.  A screen built without a layout (the default, [None]) cannot
    print its layout: where [windll] exists the constructor succeeds and
    [print_layout] raises [TypeError], and nothing is written. *)
Theorem Screen_default_layout_raises
        (widget_separator : string) (w : World) (k : Z -> Z) :
  windll (platform w) = Some k ->
  (self <- Screen.__init__ None widget_separator ;; Screen.print_layout self) w
  = (Raise TypeError, w).
Proof.
  intros H. unfold bind, Screen.__init__, ctypes_windll_kernel32, bind.
  rewrite H. reflexivity.
Qed.

End WidgetFacts.

Section ScreenExamples.

Local Existing Instance example_console.

Lemma Screen_print_layout_order_witness :
  writes (Screen.print_layout
            (a_screen [Widget.OfHeader a_header; Widget.OfFixedLabel a_label]))
    [ConsolePrint " rovnoui " (Some "bold white on blue") false; StdoutWrite newline;
     ConsolePrint "hello     " None true; StdoutWrite newline]
    (Ok tt)
  /\ writes (Screen.print_layout
               (a_screen [Widget.OfHeader a_header;
                          Widget.OfScrollingTextBox (ScrollingTextBox.__init__ 3);
                          Widget.OfFixedLabel a_label]))
       [ConsolePrint " rovnoui " (Some "bold white on blue") false; StdoutWrite newline]
       (Raise TypeError).
Proof.
  split.
  - destruct (Screen_print_layout_order
                (a_screen [Widget.OfHeader a_header; Widget.OfFixedLabel a_label])
                _ eq_refl) as (_ & H & _).
    apply H. repeat constructor.
  - destruct (Screen_print_layout_order
                (a_screen [Widget.OfHeader a_header;
                           Widget.OfScrollingTextBox (ScrollingTextBox.__init__ 3);
                           Widget.OfFixedLabel a_label])
                _ eq_refl) as (_ & _ & H).
    apply (H [Widget.OfHeader a_header]
             (Widget.OfScrollingTextBox (ScrollingTextBox.__init__ 3))
             [Widget.OfFixedLabel a_label] TypeError);
      [reflexivity | repeat constructor | reflexivity].
Defined.

(** A header whose style the console cannot resolve stops the layout. *)
Example Screen_print_layout_missing_style :
  Screen.print_layout
    (a_screen [Widget.OfFixedLabel a_label;
               Widget.OfHeader {| Header.text := "x"; Header.style := "no such style" |};
               Widget.OfFixedLabel a_label]) World0
  = (Raise MissingStyle,
     emit [ConsolePrint "hello     " None true; StdoutWrite newline] World0).
Proof. reflexivity. Qed.

Lemma Screen_print_layout_completes_iff_witness :
  outcome (Screen.print_layout
             (a_screen [Widget.OfHeader a_header; Widget.OfSelector a_selector]))
  = Ok tt.
Proof.
  apply (Screen_print_layout_completes_iff
           (a_screen [Widget.OfHeader a_header; Widget.OfSelector a_selector])
           _ eq_refl).
  repeat constructor.
Defined.

Lemma Screen_default_layout_raises_witness :
  (self <- Screen.__init__ None newline ;; Screen.print_layout self) World_Windows
  = (Raise TypeError, World_Windows).
Proof. apply (Screen_default_layout_raises newline World_Windows (fun _ => 7)). reflexivity. Defined.

End ScreenExamples.

(** ** Screen: the platform *)

(** On Windows the constructor succeeds and the cursor can be hidden. *)
Example Screen_init_Windows :
  Screen.__init__ (Some []) newline World_Windows
  = (Ok (a_screen []), World_Windows).
Proof. reflexivity. Qed.

Example Screen_hide_cursor_Windows :
  Screen.hide_cursor (a_screen []) World_Windows
  = (Ok {| Screen._updates := 0;
           Screen.layout := Some [];
           Screen.widget_separator := newline;
           Screen.ci := {| size := 25; visible := false |};
           Screen.ci_handle := 7 |},
     {| platform := Windows; term := []; stdin := [];
        console_cursor := {| size := 25; visible := false |} |}).
Proof. reflexivity. Qed.

(** C7.  Where [ctypes] has no [windll], [hide_cursor] and [show_cursor]
    raise [AttributeError] at their first statement, for every screen
    object: they never return normally, and nothing is written or changed. *)
Theorem Screen_cursor_unsupported (self : Screen.t) (w : World) :
  windll (platform w) = None ->
  Screen.hide_cursor self w = (Raise AttributeError, w)
  /\ Screen.show_cursor self w = (Raise AttributeError, w).
Proof.
  intros H.
  unfold Screen.hide_cursor, Screen.show_cursor, bind, ctypes_windll_kernel32.
  rewrite H. split; reflexivity.
Qed.

Lemma Screen_cursor_unsupported_witness :
  Screen.hide_cursor (a_screen []) World0 = (Raise AttributeError, World0)
  /\ Screen.show_cursor (a_screen []) World0 = (Raise AttributeError, World0).
Proof. apply Screen_cursor_unsupported. reflexivity. Defined.

(** C8.  Where [ctypes] has no [windll], the constructor itself raises
    [AttributeError], whatever its arguments: no screen object comes out of
    it, so no method can be called on one.  [clear] would not be the
    obstacle: on any screen object it picks its command from
    [platform.system()] and ends normally. *)
Theorem Screen_init_unsupported
        (layout : option (list Widget.t)) (widget_separator : string) (w : World) :
  windll (platform w) = None ->
  Screen.__init__ layout widget_separator w = (Raise AttributeError, w)
  /\ (forall self w', Screen.__init__ layout widget_separator w <> (Ok self, w'))
  /\ (forall self,
         Screen.clear self w
         = (Ok (Screen.set_updates self (Screen._updates self + 1)),
            emit [System (if (oprsys (platform w) =? "Windows")%string
                          then "cls" else "clear")] w)).
Proof.
  intros H.
  assert (Hinit : Screen.__init__ layout widget_separator w = (Raise AttributeError, w)).
  { unfold Screen.__init__, bind, ctypes_windll_kernel32. now rewrite H. }
  split; [exact Hinit|]. split.
  - intros self w'. rewrite Hinit. discriminate.
  - intros self. unfold Screen.clear, bind, platform_system.
    destruct (oprsys (platform w) =? "Windows")%string; reflexivity.
Qed.

Lemma Screen_init_unsupported_witness :
  Screen.__init__ None newline World0 = (Raise AttributeError, World0)
  /\ fst (Screen.clear (a_screen []) World0)
     = Ok (Screen.set_updates (a_screen []) 1).
Proof.
  destruct (Screen_init_unsupported None newline World0 eq_refl) as (Hinit & _ & Hclear).
  split; [exact Hinit|]. now rewrite Hclear.
Defined.

(** ** Screen: cursor and counter *)

Lemma Screen_hide_cursor_run (self : Screen.t) (w : World) k :
  windll (platform w) = Some k ->
  let c := {| size := size (console_cursor w); visible := false |} in
  Screen.hide_cursor self w = (Ok (Screen.set_ci self c), with_cursor c w).
Proof.
  intros H c.
  unfold Screen.hide_cursor, bind, ctypes_windll_kernel32,
    GetConsoleCursorInfo, SetConsoleCursorInfo.
  rewrite H. cbn -[Screen.set_ci]. rewrite H. reflexivity.
Qed.

Lemma Screen_show_cursor_run (self : Screen.t) (w : World) k :
  windll (platform w) = Some k ->
  let c := {| size := size (console_cursor w); visible := true |} in
  Screen.show_cursor self w = (Ok (Screen.set_ci self c), with_cursor c w).
Proof.
  intros H c.
  unfold Screen.show_cursor, bind, ctypes_windll_kernel32,
    GetConsoleCursorInfo, SetConsoleCursorInfo.
  rewrite H. cbn -[Screen.set_ci]. rewrite H. reflexivity.
Qed.

(** X9.  Where [windll] exists, [hide_cursor] and [show_cursor] end normally:
    the console's cursor gets the visibility asked for and keeps its size,
    [self.ci] holds the description just set, and neither the terminal
    output, the input nor the other fields of the screen change. *)
Theorem Screen_cursor_set (self : Screen.t) (w : World) (k : Z -> Z) :
  windll (platform w) = Some k ->
  let seen v := {| size := size (console_cursor w); visible := v |} in
  Screen.hide_cursor self w
  = (Ok (Screen.set_ci self (seen false)), with_cursor (seen false) w)
  /\ Screen.show_cursor self w
     = (Ok (Screen.set_ci self (seen true)), with_cursor (seen true) w).
Proof.
  intros H seen. split.
  - now apply Screen_hide_cursor_run with k.
  - now apply Screen_show_cursor_run with k.
Qed.

Lemma Screen_cursor_set_witness :
  Screen.hide_cursor (a_screen []) World_Windows
  = (Ok (Screen.set_ci (a_screen []) {| size := 25; visible := false |}),
     with_cursor {| size := 25; visible := false |} World_Windows).
Proof.
  apply (Screen_cursor_set (a_screen []) World_Windows (fun _ => 7)). reflexivity.
Defined.

(** X10.  Hiding then showing is showing, showing then hiding is hiding; and
    when the cursor was visible, hiding then showing leaves the world as it
    was, with [self.ci] the console's description. *)
Theorem Screen_hide_show_round_trip (self : Screen.t) (w : World) (k : Z -> Z) :
  windll (platform w) = Some k ->
  (self' <- Screen.hide_cursor self ;; Screen.show_cursor self') w
  = Screen.show_cursor self w
  /\ (self' <- Screen.show_cursor self ;; Screen.hide_cursor self') w
     = Screen.hide_cursor self w
  /\ (visible (console_cursor w) = true ->
      (self' <- Screen.hide_cursor self ;; Screen.show_cursor self') w
      = (Ok (Screen.set_ci self (console_cursor w)), w)).
Proof.
  intros H.
  assert (Hhs : (self' <- Screen.hide_cursor self ;; Screen.show_cursor self') w
                = Screen.show_cursor self w).
  { unfold bind. rewrite (Screen_hide_cursor_run self w k H).
    rewrite (Screen_show_cursor_run _ _ k) by exact H.
    rewrite (Screen_show_cursor_run self w k H). reflexivity. }
  split; [exact Hhs|]. split.
  - unfold bind. rewrite (Screen_show_cursor_run self w k H).
    rewrite (Screen_hide_cursor_run _ _ k) by exact H.
    rewrite (Screen_hide_cursor_run self w k H). reflexivity.
  - intros Hvis. rewrite Hhs, (Screen_show_cursor_run self w k H).
    destruct w as [p t i [sz vis]]. simpl in Hvis. subst vis. reflexivity.
Qed.

Lemma Screen_hide_show_round_trip_witness :
  (self' <- Screen.hide_cursor (a_screen []) ;; Screen.show_cursor self') World_Windows
  = (Ok (Screen.set_ci (a_screen []) {| size := 25; visible := true |}), World_Windows).
Proof.
  destruct (Screen_hide_show_round_trip (a_screen []) World_Windows (fun _ => 7) eq_refl)
    as (_ & _ & H).
  apply H. reflexivity.
Defined.

Section ScreenOps.

Context {R : Rich}.

(** One call on a screen, where [windll] exists and the console accepts
    what is printed: it ends normally, counts one update when it is a
    clear, and keeps the layout, the separator, the handle and the
    platform. *)
Lemma apply_op_run (op : screen_op) (self : Screen.t) (w : World) k :
  windll (platform w) = Some k ->
  printable op ->
  exists self' w',
    apply_op op self w = (Ok self', w')
    /\ Screen._updates self'
       = Screen._updates self + (if is_clear op then 1 else 0)
    /\ Screen.layout self' = Screen.layout self
    /\ Screen.widget_separator self' = Screen.widget_separator self
    /\ Screen.ci_handle self' = Screen.ci_handle self
    /\ platform w' = platform w.
Proof.
  intros H Hp. destruct op as [|lines| | |text]; cbn [apply_op is_clear].
  - unfold Screen.clear, bind, platform_system, system, write.
    destruct (oprsys (platform w) =? "Windows")%string;
      eexists _, _; (split; [reflexivity|]); repeat split.
  - unfold Screen.partial_clear, bind, builtin_print, write.
    eexists _, _. split; [reflexivity|]. repeat split.
  - rewrite (Screen_hide_cursor_run self w k H).
    eexists _, _. split; [reflexivity|]. repeat split. simpl. lia.
  - rewrite (Screen_show_cursor_run self w k H).
    eexists _, _. split; [reflexivity|]. repeat split. simpl. lia.
  - cbn [printable] in Hp.
    unfold Screen.print, bind, console_print. rewrite Hp. unfold write.
    eexists _, _. split; [reflexivity|]. repeat split. lia.
Qed.

(** X11.  The update counter counts the clears: where [windll] exists, a
    sequence of [clear], [partial_clear], [hide_cursor], [show_cursor] and
    [print] calls whose printed texts the console accepts ends normally,
    [_updates] has grown by the number of full and partial clears among
    them, and the layout, the separator and the console handle are those
    the screen had. *)
Theorem Screen_updates_count
        (ops : list screen_op) (self : Screen.t) (w : World) (k : Z -> Z) :
  windll (platform w) = Some k ->
  Forall printable ops ->
  exists self' w',
    apply_ops ops self w = (Ok self', w')
    /\ Screen._updates self'
       = Screen._updates self + Z.of_nat (List.length (filter is_clear ops))
    /\ Screen.layout self' = Screen.layout self
    /\ Screen.widget_separator self' = Screen.widget_separator self
    /\ Screen.ci_handle self' = Screen.ci_handle self.
Proof.
  revert self w. induction ops as [|op ops IH]; intros self w H Hp.
  - exists self, w. split; [reflexivity|]. simpl. repeat split. lia.
  - inversion Hp as [|? ? Hop Hops]; subst.
    destruct (apply_op_run op self w k H Hop)
      as (self1 & w1 & Hrun & Hup & Hlay & Hsep & Hhan & Hplat).
    destruct (IH self1 w1) as (self' & w' & Hrun' & Hup' & Hlay' & Hsep' & Hhan');
      [now rewrite Hplat | exact Hops |].
    exists self', w'. unfold apply_ops in *. cbn [for_acc]. unfold bind at 1.
    rewrite Hrun. split; [exact Hrun'|].
    split; [|repeat split; congruence].
    rewrite Hup', Hup. cbn [filter]. destruct (is_clear op); simpl List.length; lia.
Qed.

End ScreenOps.

Section ScreenOpsExamples.

Local Existing Instance example_console.

Lemma Screen_updates_count_witness :
  exists self' w',
    apply_ops [OpClear; OpHideCursor; OpPartialClear (inl 99); OpPrint "x"]
      (a_screen []) World_Windows
    = (Ok self', w')
    /\ Screen._updates self' = 2.
Proof.
  destruct (Screen_updates_count
              [OpClear; OpHideCursor; OpPartialClear (inl 99); OpPrint "x"]
              (a_screen []) World_Windows (fun _ => 7) eq_refl)
    as (self' & w' & Hrun & Hup & _).
  - repeat constructor.
  - exists self', w'. split; [exact Hrun | exact Hup].
Defined.

(** A printed text the console refuses stops the sequence. *)
Example Screen_print_refused :
  fst (apply_ops [OpClear; OpPrint "[/x]"; OpPartialClear (inl 99)]
         (a_screen []) World_Windows)
  = Raise MarkupError.
Proof. reflexivity. Qed.

End ScreenOpsExamples.

(** ** Selector.ask *)

Section AskFacts.

Context {R : Rich}.

Variable int : string -> option Z.

Lemma writes_shown (self : Selector.t) (print_ : bool) :
  (print_ = true -> outcome (Selector.print self) = Ok tt) ->
  writes (if print_ then Selector.print self else ret tt) (shown self print_) (Ok tt).
Proof.
  intros H. destruct print_; [|apply writes_ret].
  rewrite <- (H eq_refl). apply Selector_print_observed.
Qed.

(** What [ask] does when the choices and the prompt are rendered, by what
    the user does at the prompt. *)
Lemma Selector_ask_world (self : Selector.t) (print_ : bool) (w : World) :
  (print_ = true -> outcome (Selector.print self) = Ok tt) ->
  refuses (prompt self) None = None ->
  let w' := emit (shown self print_ ++ [ConsoleInput (prompt self)]) w in
  Selector.ask int self print_ w
  = match stdin w with
    | [] => (Raise EOFError, w')
    | Line s :: rest =>
        (match int s with
         | Some n => Ok (PyInt n)
         | None => Raise ValueError
         end, with_stdin rest w')
    | Interrupt :: rest => (Ok (PyBool false), with_stdin rest w')
    end.
Proof.
  intros Hprint Hprompt w'.
  unfold Selector.ask. unfold bind at 1. rewrite (writes_shown self print_ Hprint).
  unfold try_except, bind, console_input. fold (prompt self). rewrite Hprompt.
  rewrite emit_emit. fold w'. change (stdin w') with (stdin w).
  destruct (stdin w) as [|[s|] rest]; [reflexivity | | reflexivity].
  unfold Selector.parse. destruct (int s); reflexivity.
Qed.

(** When the choices cannot be rendered, the error of [print] is the
    error of [ask], and no input is read. *)
Lemma Selector_ask_print_raises (self : Selector.t) (w : World) e :
  outcome (Selector.print self) = Raise e ->
  Selector.ask int self true w = (Raise e, emit (output (Selector.print self)) w).
Proof.
  intros H. unfold Selector.ask. unfold bind at 1.
  rewrite (Selector_print_observed self w), H. reflexivity.
Qed.

(** When the prompt cannot be rendered, the refusal is raised (it is not
    a [KeyboardInterrupt]), and no input is read. *)
Lemma Selector_ask_prompt_refused (self : Selector.t) (print_ : bool) (w : World) r :
  (print_ = true -> outcome (Selector.print self) = Ok tt) ->
  refuses (prompt self) None = Some r ->
  Selector.ask int self print_ w = (Raise (exn_of r), emit (shown self print_) w).
Proof.
  intros Hprint Hprompt.
  unfold Selector.ask. unfold bind at 1. rewrite (writes_shown self print_ Hprint).
  unfold try_except, bind, console_input. fold (prompt self). rewrite Hprompt.
  unfold raise. destruct r; reflexivity.
Qed.

(** A line that [int] reads is returned as that integer. *)
Lemma Selector_ask_int (self : Selector.t) (print_ : bool) (w : World) s rest n :
  (print_ = true -> outcome (Selector.print self) = Ok tt) ->
  refuses (prompt self) None = None ->
  stdin w = Line s :: rest -> int s = Some n ->
  fst (Selector.ask int self print_ w) = Ok (PyInt n).
Proof.
  intros Hprint Hprompt Hin Hint.
  rewrite Selector_ask_world, Hin, Hint by assumption. reflexivity.
Qed.

(** A line that [int] rejects: the [ValueError] reaches the caller. *)
Lemma Selector_ask_ValueError (self : Selector.t) (print_ : bool) (w : World) s rest :
  (print_ = true -> outcome (Selector.print self) = Ok tt) ->
  refuses (prompt self) None = None ->
  stdin w = Line s :: rest -> int s = None ->
  fst (Selector.ask int self print_ w) = Raise ValueError.
Proof.
  intros Hprint Hprompt Hin Hint.
  rewrite Selector_ask_world, Hin, Hint by assumption. reflexivity.
Qed.

(** An interrupt at the prompt is caught: [ask] returns [False]. *)
Lemma Selector_ask_interrupt (self : Selector.t) (print_ : bool) (w : World) rest :
  (print_ = true -> outcome (Selector.print self) = Ok tt) ->
  refuses (prompt self) None = None ->
  stdin w = Interrupt :: rest ->
  fst (Selector.ask int self print_ w) = Ok (PyBool false).
Proof.
  intros Hprint Hprompt Hin.
  rewrite Selector_ask_world, Hin by assumption. reflexivity.
Qed.

(** X7.  When the choices (if they are to be printed) and the prompt are
    rendered, what [ask] returns is decided by what the user does at the
    prompt: a line is handed to [int], whose number is returned and whose
    [ValueError] reaches the caller; an interrupt gives [False]; the end of
    the input is not caught and [EOFError] reaches the caller. *)
Theorem Selector_ask_result (self : Selector.t) (print_ : bool) (w : World) :
  (print_ = true -> outcome (Selector.print self) = Ok tt) ->
  refuses (prompt self) None = None ->
  fst (Selector.ask int self print_ w)
  = match stdin w with
    | [] => Raise EOFError
    | Line s :: _ =>
        match int s with
        | Some n => Ok (PyInt n)
        | None => Raise ValueError
        end
    | Interrupt :: _ => Ok (PyBool false)
    end.
Proof.
  intros Hprint Hprompt. rewrite Selector_ask_world by assumption.
  destruct (stdin w) as [|[s|] rest]; reflexivity.
Qed.

(** X8.  What [ask] does to the world.  When the choices (if they are to
    be printed) and the prompt are rendered, it writes the choices exactly
    when [print] is true, then the prompt once, and takes one line (or
    interrupt) from the input, however it ends.  When the printing of the
    choices raises, or the console refuses the prompt, that error is the
    result of [ask], only what was written before it is on the terminal,
    and the input is not touched. *)
Theorem Selector_ask_effects (self : Selector.t) (print_ : bool) (w : World) :
  ((print_ = true -> outcome (Selector.print self) = Ok tt) ->
   refuses (prompt self) None = None ->
   snd (Selector.ask int self print_ w)
   = with_stdin (tl (stdin w))
       (emit (shown self print_ ++ [ConsoleInput (prompt self)]) w))
  /\ (forall e,
         outcome (Selector.print self) = Raise e ->
         Selector.ask int self true w
         = (Raise e, emit (output (Selector.print self)) w))
  /\ (forall r,
         (print_ = true -> outcome (Selector.print self) = Ok tt) ->
         refuses (prompt self) None = Some r ->
         Selector.ask int self print_ w
         = (Raise (exn_of r), emit (shown self print_) w)).
Proof.
  split; [|split].
  - intros Hprint Hprompt. rewrite Selector_ask_world by assumption.
    destruct (stdin w) as [|[s|] rest] eqn:E; try reflexivity.
    unfold with_stdin, emit; simpl. now rewrite E.
  - intros e. apply Selector_ask_print_raises.
  - intros r. apply Selector_ask_prompt_refused.
Qed.

End AskFacts.

(** C1, at the input where the code departs from it.  On a selector whose
    choices and prompt are rendered, the user typing [0] makes [ask] return
    the integer 0; the user interrupting makes it return [False].  [False]
    is equal to 0 ([False == 0], both falsy), so the result of the
    cancellation is not distinct from every integer result: a caller
    comparing with [==] or testing truth cannot tell the two. *)
Theorem Selector_ask_cancel_equals_zero
        {R : Rich} (self : Selector.t) (print_ : bool) (w : World) :
  (print_ = true -> outcome (Selector.print self) = Ok tt) ->
  refuses (prompt self) None = None ->
  let typed_zero := fst (Selector.ask decimal_int self print_ (with_stdin [Line "0"] w)) in
  let cancelled := fst (Selector.ask decimal_int self print_ (with_stdin [Interrupt] w)) in
  typed_zero = Ok (PyInt 0)
  /\ cancelled = Ok (PyBool false)
  /\ py_eq (PyBool false) (PyInt 0) = true
  /\ truthy (PyBool false) = truthy (PyInt 0).
Proof.
  intros Hprint Hprompt. split; [|split].
  - now apply (Selector_ask_int decimal_int self print_ _ "0" []).
  - now apply (Selector_ask_interrupt decimal_int self print_ _ []).
  - repeat split.
Qed.

Section AskExamples.

Local Existing Instance example_console.

Lemma Selector_ask_cancel_equals_zero_witness :
  fst (Selector.ask decimal_int a_selector true (with_stdin [Line "0"] World0))
  = Ok (PyInt 0)
  /\ fst (Selector.ask decimal_int a_selector true (with_stdin [Interrupt] World0))
     = Ok (PyBool false)
  /\ py_eq (PyBool false) (PyInt 0) = true.
Proof.
  destruct (Selector_ask_cancel_equals_zero a_selector true World0)
    as (H0 & Hc & Heq & _); [reflexivity | reflexivity |].
  split; [exact H0 | split; [exact Hc | exact Heq]].
Defined.

Lemma Selector_ask_result_witness :
  fst (Selector.ask decimal_int a_selector true (with_stdin [Line "2"] World0))
  = Ok (PyInt 2).
Proof.
  rewrite (Selector_ask_result decimal_int a_selector true); reflexivity.
Defined.

Lemma Selector_ask_effects_witness :
  stdin (snd (Selector.ask decimal_int a_selector false
                (with_stdin [Line "2"; Line "3"] World0)))
  = [Line "3"]
  /\ Selector.ask decimal_int
       {| Selector.header := None; Selector.choices := []; Selector.style := "" |}
       false (with_stdin [Line "2"] World0)
     = (Raise MarkupError, with_stdin [Line "2"] World0).
Proof.
  split.
  - destruct (Selector_ask_effects decimal_int a_selector false
                (with_stdin [Line "2"; Line "3"] World0)) as (H & _).
    rewrite H; [reflexivity | discriminate | reflexivity].
  - destruct (Selector_ask_effects decimal_int
                {| Selector.header := None; Selector.choices := [];
                   Selector.style := "" |}
                false (with_stdin [Line "2"] World0)) as (_ & _ & H).
    rewrite (H BadMarkup); [reflexivity | discriminate | reflexivity].
Defined.

Example Selector_ask_abc :
  fst (Selector.ask decimal_int a_selector true (with_stdin [Line "abc"] World0))
  = Raise ValueError.
Proof. reflexivity. Qed.

End AskExamples.

(** ** InfoFrame *)

Section InfoFrameFacts.

Context {R : Rich}.

Lemma entry_play (entry : Dict.t) (w : World) :
  nonempty entry = true ->
  (title <- first (Dict.keys entry) ;;
   console_print ("[bold]" ++ title ++ "[/]") None false ;;
   body <- first (Dict.values entry) ;;
   console_print body None false) w
  = play (entry_lines entry) w.
Proof.
  destruct entry as [|[k v] rest]; [discriminate | intros _].
  cbn [Dict.keys Dict.values map fst snd first entry_lines].
  unfold play. cbn [for_]. unfold bind, ret.
  destruct (console_print _ None false w) as [[[]|e] w1]; [|reflexivity].
  destruct (console_print v None false w1) as [[[]|e] w2]; reflexivity.
Qed.

Lemma entries_play (entries : list Dict.t) (w : World) :
  forallb nonempty entries = true ->
  for_ entries (fun entry =>
    title <- first (Dict.keys entry) ;;
    console_print ("[bold]" ++ title ++ "[/]") None false ;;
    body <- first (Dict.values entry) ;;
    console_print body None false) w
  = play (flat_map entry_lines entries) w.
Proof.
  revert w. induction entries as [|entry entries IH]; intros w H; [reflexivity|].
  cbn [forallb] in H. apply andb_true_iff in H. destruct H as [He Hes].
  cbn [for_ flat_map]. rewrite play_app.
  apply bind_ext; [intros w'; now apply entry_play | intros _ w'; now apply IH].
Qed.

(** X5.  When no entry is empty, the lines [InfoFrame.print] is to write
    are the header line and, for every entry in order, the entry's first
    key in bold and the entry's first value; further keys of an entry are
    not shown.  When the console accepts them all, [print] ends normally
    and has written them; when it refuses one, the lines before it have
    been written and the refusal is raised. *)
Theorem InfoFrame_print_entries (self : InfoFrame.t) :
  forallb nonempty (InfoFrame.data self) = true ->
  let lines :=
    (header_lines (InfoFrame.header self)
     ++ flat_map entry_lines (InfoFrame.data self))%list in
  (Forall accepted lines -> writes (InfoFrame.print self) lines (Ok tt))
  /\ (forall before line after r,
         lines = (before ++ line :: after)%list ->
         Forall accepted before ->
         refusal_of line = Some r ->
         writes (InfoFrame.print self) before (Raise (exn_of r))).
Proof.
  intros H lines.
  assert (Hplay : forall w, InfoFrame.print self w = play lines w).
  { intros w. subst lines. rewrite play_app. unfold InfoFrame.print.
    apply bind_ext; [apply print_header_play | intros _ w'].
    now apply entries_play. }
  split.
  - intros Hacc. apply (writes_ext _ _ _ _ Hplay). now apply play_accepted.
  - intros before line after r Hsplit Hbefore Hline.
    apply (writes_ext _ _ _ _ Hplay). rewrite Hsplit. now apply play_refused.
Qed.

(** X6.  When the console accepts the header line and the lines of the
    entries that come before the first empty entry, [InfoFrame.print]
    writes them and raises [IndexError] at the empty entry (from
    [list(entry.keys())[0]]); the entries after it are not written. *)
Theorem InfoFrame_print_empty_entry
        (self : InfoFrame.t) (before after : list Dict.t) :
  InfoFrame.data self = (before ++ [] :: after)%list ->
  forallb nonempty before = true ->
  let lines :=
    (header_lines (InfoFrame.header self) ++ flat_map entry_lines before)%list in
  Forall accepted lines ->
  writes (InfoFrame.print self) lines (Raise IndexError).
Proof.
  intros Hdata H lines Hacc. apply Forall_app in Hacc. destruct Hacc as [Hh Hb].
  unfold InfoFrame.print. rewrite Hdata. subst lines.
  eapply writes_bind.
  - apply (writes_ext _ _ _ _ (print_header_play _)). now apply play_accepted.
  - intros w. rewrite for_app. unfold bind at 1.
    rewrite (entries_play before w H), (play_accepted _ Hb w).
    reflexivity.
Qed.

End InfoFrameFacts.

Section InfoFrameExamples.

Local Existing Instance example_console.

Lemma InfoFrame_print_entries_witness :
  writes (InfoFrame.print
            {| InfoFrame.header := None;
               InfoFrame.data := [[("cpu", "12%"); ("ignored", "x")]; [("ram", "3G")]] |})
    [ConsolePrint "[bold]cpu[/]" None false; ConsolePrint "12%" None false;
     ConsolePrint "[bold]ram[/]" None false; ConsolePrint "3G" None false]
    (Ok tt)
  /\ writes (InfoFrame.print
               {| InfoFrame.header := None;
                  InfoFrame.data := [[("cpu", "[/x]")]; [("ram", "3G")]] |})
       [ConsolePrint "[bold]cpu[/]" None false] (Raise MarkupError).
Proof.
  split.
  - apply (InfoFrame_print_entries
             {| InfoFrame.header := None;
                InfoFrame.data := [[("cpu", "12%"); ("ignored", "x")]; [("ram", "3G")]] |});
      [reflexivity | repeat constructor].
  - apply (proj2 (InfoFrame_print_entries
                    {| InfoFrame.header := None;
                       InfoFrame.data := [[("cpu", "[/x]")]; [("ram", "3G")]] |}
                    eq_refl)
             [ConsolePrint "[bold]cpu[/]" None false]
             (ConsolePrint "[/x]" None false)
             [ConsolePrint "[bold]ram[/]" None false; ConsolePrint "3G" None false]
             BadMarkup);
      [reflexivity | repeat constructor | reflexivity].
Defined.

Lemma InfoFrame_print_empty_entry_witness :
  writes (InfoFrame.print
            {| InfoFrame.header := None;
               InfoFrame.data := [[("cpu", "12%")]; []; [("ram", "3G")]] |})
    [ConsolePrint "[bold]cpu[/]" None false; ConsolePrint "12%" None false]
    (Raise IndexError).
Proof.
  apply (InfoFrame_print_empty_entry
           {| InfoFrame.header := None;
              InfoFrame.data := [[("cpu", "12%")]; []; [("ram", "3G")]] |}
           [[("cpu", "12%")]] [[("ram", "3G")]]);
    [reflexivity | reflexivity | repeat constructor].
Defined.

End InfoFrameExamples.
